(** * notmuch.c: command dispatch and compatibility gates

    A shallow embedding of [notmuch.c], the entry point of the notmuch
    command-line client: the command table and [find_command], the
    shared options and [notmuch_process_shared_options], the two gates
    [notmuch_exit_if_unsupported_format] and
    [notmuch_exit_if_unmatched_db_uuid], the help resolver [_help_for]
    and [main].

    C [int]s are [Z]; [const char *] is [option string] ([None] is the
    NULL pointer) and a string holds the bytes before the terminating NUL;
    [exit], [execlp] and undefined behaviour end a computation early. *)

From Stdlib Require Import ZArith List String Ascii Bool Lia.
From Stdlib Require Import DecimalString DecimalPos DecimalZ.
Import ListNotations.
Open Scope string_scope.
Open Scope Z_scope.

(** ** C strings *)

Module CStr.

Definition byte (c : ascii) : Z := Z.of_N (N_of_ascii c).

(** A Rocq string stands for a C string when no character is NUL. *)
Fixpoint cstring (s : string) : bool :=
  match s with
  | EmptyString => true
  | String c r => negb (byte c =? 0) && cstring r
  end.

(** [strcmp] of the C library on the bytes of both strings, the end of
    a string read as the terminating NUL: the difference of the first
    pair of bytes that differ, 0 when a NUL is reached on both sides. *)
Fixpoint strcmp (s1 s2 : string) : Z :=
  match s1, s2 with
  | EmptyString, EmptyString => 0
  | EmptyString, String c2 _ => 0 - byte c2
  | String c1 _, EmptyString => byte c1
  | String c1 r1, String c2 r2 =>
      if byte c1 =? byte c2
      then (if byte c1 =? 0 then 0 else strcmp r1 r2)
      else byte c1 - byte c2
  end.

Definition nl : string := String (ascii_of_nat 10) EmptyString.
Definition tab : string := String (ascii_of_nat 9) EmptyString.
Definition dq : string := String (ascii_of_nat 34) EmptyString.

(** [%d] of printf. *)
Definition fmt_d (n : Z) : string := NilZero.string_of_int (Z.to_int n).

Fixpoint spaces (n : nat) : string :=
  match n with
  | O => EmptyString
  | S k => String " " (spaces k)
  end.

(** [%-12s] of printf: left-justified, padded with blanks to 12 columns. *)
Definition fmt_pad12 (s : string) : string :=
  s ++ spaces (12 - String.length s).

(** [t] occurs inside [s]. *)
Definition contains (s t : string) : Prop :=
  exists pre post, s = pre ++ t ++ post.

End CStr.
Import CStr.

(** ** Data model *)

(** The functions a [command_function_t] pointer of the table can hold.
    [notmuch_command] and [notmuch_help_command] are defined in this
    file, the other ones by the sub-commands. *)
Module Fn.
Inductive t : Set :=
| notmuch_command | notmuch_setup_command | notmuch_new_command
| notmuch_insert_command | notmuch_search_command
| notmuch_address_command | notmuch_show_command
| notmuch_count_command | notmuch_reply_command | notmuch_tag_command
| notmuch_dump_command | notmuch_restore_command
| notmuch_compact_command | notmuch_config_command
| notmuch_help_command.
End Fn.

Record command_t : Set := mk_command {
  name : option string;
  function : Fn.t;
  create_config : bool;
  summary : string
}.

Record help_topic_t : Set := mk_help_topic {
  topic_name : string;
  topic_summary : string
}.

Definition commands : list command_t := [
  mk_command None Fn.notmuch_command true
    "Notmuch main command.";
  mk_command (Some "setup") Fn.notmuch_setup_command true
    "Interactively set up notmuch for first use.";
  mk_command (Some "new") Fn.notmuch_new_command false
    "Find and import new messages to the notmuch database.";
  mk_command (Some "insert") Fn.notmuch_insert_command false
    "Add a new message into the maildir and notmuch database.";
  mk_command (Some "search") Fn.notmuch_search_command false
    "Search for messages matching the given search terms.";
  mk_command (Some "address") Fn.notmuch_address_command false
    "Get addresses from messages matching the given search terms.";
  mk_command (Some "show") Fn.notmuch_show_command false
    "Show all messages matching the search terms.";
  mk_command (Some "count") Fn.notmuch_count_command false
    "Count messages matching the search terms.";
  mk_command (Some "reply") Fn.notmuch_reply_command false
    "Construct a reply template for a set of messages.";
  mk_command (Some "tag") Fn.notmuch_tag_command false
    "Add/remove tags for all messages matching the search terms.";
  mk_command (Some "dump") Fn.notmuch_dump_command false
    "Create a plain-text dump of the tags for each message.";
  mk_command (Some "restore") Fn.notmuch_restore_command false
    "Restore the tags from the given dump file (see 'dump').";
  mk_command (Some "compact") Fn.notmuch_compact_command false
    "Compact the notmuch database.";
  mk_command (Some "config") Fn.notmuch_config_command false
    "Get or set settings in the notmuch configuration file.";
  mk_command (Some "help") Fn.notmuch_help_command true
    "This message, or more detailed help for the named command."
].

Definition help_topics : list help_topic_t := [
  mk_help_topic "search-terms"
    "Common search term syntax.";
  mk_help_topic "hooks"
    "Hooks that will be run before or after certain commands."
].

(** The test of the loop of [find_command] on one entry. *)
Definition command_matches (name0 : option string) (c : command_t) : bool :=
  match name0, name c with
  | None, None => true
  | Some n, Some cn => strcmp n cn =? 0
  | _, _ => false
  end.

(** The loop of [find_command] from some index on: the first entry that
    passes the test, NULL when the table is exhausted. *)
Fixpoint find_command_in (table : list command_t) (name0 : option string)
  : option command_t :=
  match table with
  | [] => None
  | c :: rest =>
      if command_matches name0 c then Some c else find_command_in rest name0
  end.

Definition find_command (name0 : option string) : option command_t :=
  find_command_in commands name0.

(** Opaque handles of the library. *)
Record notmuch_config_t : Set := Config { config_id : nat }.
Record notmuch_database_t : Set := Database { database_id : nat }.

(** The two statuses of <stdlib.h>, with their values on the systems
    notmuch is built for. *)
Definition EXIT_SUCCESS : Z := 0.
Definition EXIT_FAILURE : Z := 1.

(** The variables of the file shared by all its functions. *)
Record globals : Set := mk_globals {
  print_version : bool;
  print_help : bool;
  notmuch_requested_db_uuid : option string;
  notmuch_format_version : Z
}.

(** At program start: [FALSE], [FALSE], [NULL] and a zeroed [int]. *)
Definition globals_init : globals := mk_globals false false None 0.

Inductive stream : Set := stdout | stderr.

(** What the code of this file does to the outside, in program order:
    its own output and its calls of collaborators (a call stands for all
    the callee does). *)
Inductive event : Set :=
| Out (f : stream) (text : string)
| Perror (s : string)
| Lib (callee : string)
| ParseArguments (argv : list string)
| Execlp (file : string) (args : list string)
| GetRevision (db : notmuch_database_t)
| ConfigOpen (file : option string) (create : bool) (r : option notmuch_config_t)
| ConfigClose (c : notmuch_config_t)
| Run (f : Fn.t) (c : notmuch_config_t) (argc : Z) (argv : list string)
| Getenv (var : string)
| Fopen (path : string) (mode : string) (ok : bool)
| TallocReportFull.

(** How a computation ends before its last statement: [exit], a
    successful [execlp], or undefined behaviour of C. *)
Inductive stop : Set :=
| Exited (status : Z)
| Replaced (file : string) (args : list string)
| Undefined.

Inductive res (A : Type) : Type :=
| Done (a : A)
| Stop (s : stop).
Arguments Done {A} a.
Arguments Stop {A} s.

(** The option table given to [parse_arguments]. *)
Inductive opt_table : Set :=
| main_options      (* config, then the shared options *)
| shared_only.      (* the table of notmuch_minimal_options *)

(** The values [parse_arguments] leaves in the variables the option
    descriptors point to, and its return value. *)
Record parsed : Set := mk_parsed {
  opt_index : Z;
  parsed_version : bool;
  parsed_help : bool;
  parsed_uuid : option string;
  parsed_config : option string
}.

(** What the file takes from elsewhere: the macros of notmuch-client.h,
    the argument parser, the library, the sub-commands and the C
    library. *)
Record world : Type := mk_world {
  NOTMUCH_VERSION : string;
  NOTMUCH_FORMAT_CUR : Z;
  NOTMUCH_FORMAT_MIN : Z;
  NOTMUCH_FORMAT_MIN_ACTIVE : Z;
  NOTMUCH_EXIT_FORMAT_TOO_NEW : Z;
  NOTMUCH_EXIT_FORMAT_TOO_OLD : Z;
  glib_before_2_35_1 : bool;
  parse_arguments :
    list string -> opt_table -> globals -> option string -> parsed;
  (** the value found in [*uuid] after the call *)
  notmuch_database_get_revision : notmuch_database_t -> option string;
  (** [true] when the process image was replaced *)
  execlp : string -> list string -> bool;
  notmuch_config_open : option string -> bool -> option notmuch_config_t;
  notmuch_config_is_new : notmuch_config_t -> bool;
  notmuch_config_get_database_path : notmuch_config_t -> option string;
  notmuch_config_get_user_name : notmuch_config_t -> option string;
  notmuch_config_get_user_primary_email : notmuch_config_t -> option string;
  (** a sub-command: the globals it leaves and its status, or how it
      ended the process *)
  subcommand :
    Fn.t -> notmuch_config_t -> Z -> list string -> globals -> globals * res Z;
  (** [None] on success, the errno otherwise *)
  stat : string -> option Z;
  ENOENT : Z;
  strerror : Z -> string;
  getenv : string -> option string;
  fopen : string -> string -> bool
}.

(** ** Computations: output, globals and early ends *)

Definition M (A : Type) : Type := globals -> list event * globals * res A.

Definition ret {A} (a : A) : M A := fun g => ([], g, Done a).

Definition bind {A B} (m : M A) (k : A -> M B) : M B :=
  fun g =>
    match m g with
    | (t1, g1, Done a) =>
        match k a g1 with
        | (t2, g2, r) => ((t1 ++ t2)%list, g2, r)
        end
    | (t1, g1, Stop s) => (t1, g1, Stop s)
    end.

Declare Scope prog_scope.
Delimit Scope prog_scope with prog.
Notation "x <- m ;; k" := (bind m (fun x => k))
  (at level 100, m at next level, right associativity) : prog_scope.
Notation "m ;; k" := (bind m (fun _ => k))
  (at level 100, right associativity) : prog_scope.
Open Scope prog_scope.

Definition emit (e : event) : M unit := fun g => ([e], g, Done tt).
Definition halt {A} (s : stop) : M A := fun g => ([], g, Stop s).
Definition exit {A} (status : Z) : M A := halt (Exited status).
Definition get : M globals := fun g => ([], g, Done g).
Definition put (g' : globals) : M unit := fun _ => ([], g', Done tt).

Definition fprintf (f : stream) (text : string) : M unit := emit (Out f text).
Definition printf (text : string) : M unit := fprintf stdout text.

(** A [char *] given to [%s] or to a string function: NULL there is
    undefined behaviour. *)
Definition deref (p : option string) : M string :=
  match p with
  | Some s => ret s
  | None => halt Undefined
  end.

Fixpoint for_each {A} (l : list A) (body : A -> M unit) : M unit :=
  match l with
  | [] => ret tt
  | a :: rest => body a ;; for_each rest body
  end.

(** The events, the globals left and the result of a run. *)
Definition trace {A} (x : list event * globals * res A) : list event :=
  fst (fst x).
Definition final {A} (x : list event * globals * res A) : globals :=
  snd (fst x).
Definition result {A} (x : list event * globals * res A) : res A := snd x.

(** ** The functions of notmuch.c *)

Section Program.

Variable w : world.

(** [parse_arguments (argc, argv, options, 1)]: the parser stores what
    it finds through the descriptors and returns the index of the first
    argument it did not consume, negative on error. *)
Definition run_parse_arguments (argv : list string) (options : opt_table)
           (config_file_name : option string) : M (Z * option string) :=
  fun g =>
    let p := parse_arguments w argv options g config_file_name in
    ([ParseArguments argv],
     mk_globals (parsed_version p) (parsed_help p) (parsed_uuid p)
                (notmuch_format_version g),
     Done (opt_index p, parsed_config p)).

(** [argv[i]]: an argument, the NULL that ends the vector, and
    undefined past it. *)
Definition arg_at (argv : list string) (i : Z) : M (option string) :=
  if i <? 0 then halt Undefined
  else match nth_error argv (Z.to_nat i) with
       | Some s => ret (Some s)
       | None =>
           if i =? Z.of_nat (List.length argv) then ret None
           else halt Undefined
       end.

Definition usage (out : stream) : M unit :=
  fprintf out ("Usage: notmuch --help" ++ nl ++
               "       notmuch --version" ++ nl ++
               "       notmuch <command> [args...]" ++ nl) ;;
  fprintf out nl ;;
  fprintf out ("The available commands are as follows:" ++ nl) ;;
  fprintf out nl ;;
  for_each commands (fun command =>
    match name command with
    | Some n =>
        fprintf out ("  " ++ fmt_pad12 n ++ "  " ++ summary command ++ nl)
    | None => ret tt
    end) ;;
  fprintf out nl ;;
  fprintf out ("Additional help topics are as follows:" ++ nl) ;;
  fprintf out nl ;;
  for_each help_topics (fun topic =>
    fprintf out ("  " ++ fmt_pad12 (topic_name topic) ++ "  "
                 ++ topic_summary topic ++ nl)) ;;
  fprintf out nl ;;
  fprintf out ("Use " ++ dq ++ "notmuch help <command or topic>" ++ dq
               ++ " for more details on each command or topic."
               ++ nl ++ nl).

(** [execlp] returns only when it failed. *)
Definition exec_man (page : string) : M unit :=
  emit (Execlp "man" ["man"; page]) ;;
  if execlp w "man" ["man"; page]
  then halt (Replaced "man" ["man"; page])
  else (emit (Perror "exec man") ;; exit 1).

Definition not_known (topic : string) : string :=
  nl ++ "Sorry, " ++ topic
     ++ " is not a known command. There's not much I can do to help."
     ++ nl ++ nl.

Definition _help_for (topic : option string) : M Z :=
  match topic with
  | None =>
      printf ("The notmuch mail system." ++ nl ++ nl) ;;
      usage stdout ;;
      ret EXIT_SUCCESS
  | Some t =>
      if strcmp t "help" =? 0 then
        printf ("The notmuch help system." ++ nl ++ nl
                ++ tab ++ "Notmuch uses the man command to display help. In case" ++ nl
                ++ tab ++ "of difficulties check that MANPATH includes the pages" ++ nl
                ++ tab ++ "installed by notmuch." ++ nl ++ nl
                ++ tab ++ "Try " ++ dq ++ "notmuch help" ++ dq
                ++ " for a list of topics." ++ nl) ;;
        ret EXIT_SUCCESS
      else
        match find_command (Some t) with
        | Some command =>
            n <- deref (name command) ;;
            exec_man ("notmuch-" ++ n)
        | None => ret tt
        end ;;
        for_each help_topics (fun topic =>
          if strcmp t (topic_name topic) =? 0
          then exec_man ("notmuch-" ++ topic_name topic)
          else ret tt) ;;
        fprintf stderr (not_known t) ;;
        ret EXIT_FAILURE
  end.

Definition notmuch_process_shared_options (subcommand_name : option string)
  : M unit :=
  g <- get ;;
  (if print_version g then
     printf ("notmuch " ++ NOTMUCH_VERSION w ++ nl) ;;
     exit EXIT_SUCCESS
   else ret tt) ;;
  (if print_help g then
     r <- _help_for subcommand_name ;;
     exit r
   else ret tt).

Definition notmuch_minimal_options (subcommand_name : option string)
           (argc : Z) (argv : list string) : M Z :=
  p <- run_parse_arguments argv shared_only None ;;
  let opt_index := fst p in
  if opt_index <? 0 then ret (-1)
  else (notmuch_process_shared_options subcommand_name ;;
        ret opt_index).

Definition too_new (v cur : Z) : string :=
  "A caller requested output format version " ++ fmt_d v
    ++ ", but the installed notmuch" ++ nl
    ++ "CLI only supports up to format version " ++ fmt_d cur
    ++ ".  You may need to upgrade your" ++ nl
    ++ "notmuch CLI." ++ nl.

Definition too_old (v min : Z) : string :=
  "A caller requested output format version " ++ fmt_d v
    ++ ", which is no longer supported" ++ nl
    ++ "by the notmuch CLI (it requires at least version " ++ fmt_d min
    ++ ").  You may need to" ++ nl
    ++ "upgrade your notmuch front-end." ++ nl.

Definition deprecated (v : Z) : string :=
  "A caller requested deprecated output format version " ++ fmt_d v
    ++ ", which may not" ++ nl
    ++ "be supported in the future." ++ nl.

Definition notmuch_exit_if_unsupported_format : M unit :=
  g <- get ;;
  let v := notmuch_format_version g in
  if v >? NOTMUCH_FORMAT_CUR w then
    fprintf stderr (too_new v (NOTMUCH_FORMAT_CUR w)) ;;
    exit (NOTMUCH_EXIT_FORMAT_TOO_NEW w)
  else if v <? NOTMUCH_FORMAT_MIN w then
    fprintf stderr (too_old v (NOTMUCH_FORMAT_MIN w)) ;;
    exit (NOTMUCH_EXIT_FORMAT_TOO_OLD w)
  else if v <? NOTMUCH_FORMAT_MIN_ACTIVE w then
    fprintf stderr (deprecated v)
  else ret tt.

(** [strcmp] on two pointers: it reads through both. *)
Definition strcmp_ptr (p q : option string) : M Z :=
  a <- deref p ;;
  b <- deref q ;;
  ret (strcmp a b).

Definition unmatched (requested uuid : string) : string :=
  "Error: requested database revision " ++ requested
    ++ " does not match " ++ uuid ++ nl.

Definition notmuch_exit_if_unmatched_db_uuid (notmuch : notmuch_database_t)
  : M unit :=
  g <- get ;;
  match notmuch_requested_db_uuid g with
  | None => ret tt
  | Some requested =>
      emit (GetRevision notmuch) ;;
      let uuid := notmuch_database_get_revision w notmuch in
      c <- strcmp_ptr (Some requested) uuid ;;
      if negb (c =? 0) then
        u <- deref uuid ;;
        fprintf stderr (unmatched requested u) ;;
        exit 1
      else ret tt
  end.

(** A sub-command defined outside this file. *)
Definition run_subcommand (f : Fn.t) (config : notmuch_config_t)
           (argc : Z) (argv : list string) : M Z :=
  fun g =>
    match subcommand w f config argc argv g with
    | (g', r) => ([Run f config argc argv], g', r)
    end.

Definition notmuch_help_command (argc : Z) (argv : list string) : M Z :=
  opt_index <- notmuch_minimal_options (Some "help") argc argv ;;
  if opt_index <? 0 then ret EXIT_FAILURE
  else
    let argc := argc - opt_index in
    let argv := skipn (Z.to_nat opt_index) argv in
    if argc =? 0 then _help_for None
    else (a <- arg_at argv 0 ;; _help_for a).

Definition notmuch_command (config : notmuch_config_t) : M Z :=
  if notmuch_config_is_new w config then
    run_subcommand Fn.notmuch_setup_command config 0 []
  else
    path <- deref (notmuch_config_get_database_path w config) ;;
    let db_path := path ++ "/" ++ ".notmuch" in
    match stat w db_path with
    | Some errno =>
        if negb (errno =? ENOENT w) then
          fprintf stderr ("Error looking for notmuch database at " ++ db_path
                          ++ ": " ++ strerror w errno ++ nl) ;;
          ret EXIT_FAILURE
        else
          printf ("Notmuch is configured, but there's not yet a database at"
                  ++ nl ++ nl ++ tab ++ db_path ++ nl ++ nl) ;;
          printf ("You probably want to run " ++ dq ++ "notmuch new" ++ dq
                  ++ " now to create that database." ++ nl ++ nl
                  ++ "Note that the first run of " ++ dq ++ "notmuch new" ++ dq
                  ++ " can take a very long time" ++ nl
                  ++ "and that the resulting database will use roughly the same amount of" ++ nl
                  ++ "storage space as the email being indexed." ++ nl ++ nl) ;;
          ret EXIT_SUCCESS
    | None =>
        user <- deref (notmuch_config_get_user_name w config) ;;
        email <- deref (notmuch_config_get_user_primary_email w config) ;;
        printf ("Notmuch is configured and appears to have a database. Excellent!" ++ nl ++ nl
                ++ "At this point you can start exploring the functionality of notmuch by" ++ nl
                ++ "using commands such as:" ++ nl ++ nl
                ++ tab ++ "notmuch search tag:inbox" ++ nl ++ nl
                ++ tab ++ "notmuch search to:" ++ dq ++ user ++ dq ++ nl ++ nl
                ++ tab ++ "notmuch search from:" ++ dq ++ email ++ dq ++ nl ++ nl
                ++ tab ++ "notmuch search subject:" ++ dq ++ "my favorite things" ++ dq ++ nl ++ nl
                ++ "See " ++ dq ++ "notmuch help search" ++ dq ++ " for more details." ++ nl ++ nl
                ++ "You can also use " ++ dq ++ "notmuch show" ++ dq
                ++ " with any of the thread IDs resulting" ++ nl
                ++ "from a search. Finally, you may want to explore using a more sophisticated" ++ nl
                ++ "interface to notmuch such as the emacs interface implemented in notmuch.el" ++ nl
                ++ "or any other interface described at http://notmuchmail.org" ++ nl ++ nl
                ++ "And don't forget to run " ++ dq ++ "notmuch new" ++ dq
                ++ " whenever new mail arrives." ++ nl ++ nl
                ++ "Have fun, and may your inbox never have much mail." ++ nl ++ nl) ;;
        ret EXIT_SUCCESS
    end.

(** [(command->function) (config, argc, argv)]. *)
Definition call (f : Fn.t) (config : notmuch_config_t)
           (argc : Z) (argv : list string) : M Z :=
  match f with
  | Fn.notmuch_command => notmuch_command config
  | Fn.notmuch_help_command => notmuch_help_command argc argv
  | _ => run_subcommand f config argc argv
  end.

Definition unknown_command (command_name : string) : string :=
  "Error: Unknown command '" ++ command_name ++ "' (see " ++ dq
    ++ "notmuch help" ++ dq ++ ")" ++ nl.

(** [main] from the call of [parse_arguments] to the label [DONE]: the
    values of [config] and [ret] there. *)
Definition dispatch (argv : list string) : M (option notmuch_config_t * Z) :=
  let argc := Z.of_nat (List.length argv) in
  p <- run_parse_arguments argv main_options None ;;
  let opt_index := fst p in
  let config_file_name := snd p in
  if opt_index <? 0 then ret (None, EXIT_FAILURE)
  else
    command_name <- (if opt_index <? argc then arg_at argv opt_index
                     else ret None) ;;
    notmuch_process_shared_options command_name ;;
    match find_command command_name with
    | None =>
        n <- deref command_name ;;
        fprintf stderr (unknown_command n) ;;
        ret (None, EXIT_FAILURE)
    | Some command =>
        let config :=
          notmuch_config_open w config_file_name (create_config command) in
        emit (ConfigOpen config_file_name (create_config command) config) ;;
        match config with
        | None => ret (None, EXIT_FAILURE)
        | Some c =>
            r <- call (function command) c (argc - opt_index)
                      (skipn (Z.to_nat opt_index) argv) ;;
            ret (Some c, r)
        end
    end.

(** [main] from the label [DONE] on. *)
Definition teardown (config : option notmuch_config_t) (r : Z) : M Z :=
  match config with
  | Some c => emit (ConfigClose c)
  | None => ret tt
  end ;;
  emit (Getenv "NOTMUCH_TALLOC_REPORT") ;;
  r' <- match getenv w "NOTMUCH_TALLOC_REPORT" with
        | Some talloc_report =>
            if negb (strcmp talloc_report "" =? 0) then
              let report := fopen w talloc_report "w" in
              emit (Fopen talloc_report "w" report) ;;
              if report then (emit TallocReportFull ;; ret r)
              else (fprintf stderr "ERROR: unable to write talloc log. " ;;
                    emit (Perror talloc_report) ;;
                    ret 1)
            else ret r
        | None => ret r
        end ;;
  emit (Lib "talloc_free") ;;
  ret r'.

Definition main (argv : list string) : M Z :=
  emit (Lib "talloc_enable_null_tracking") ;;
  emit (Lib "talloc_new") ;;
  emit (Lib "g_mime_init") ;;
  (if glib_before_2_35_1 w then emit (Lib "g_type_init") else ret tt) ;;
  g <- get ;;
  put (mk_globals (print_version g) (print_help g)
                  (notmuch_requested_db_uuid g) (NOTMUCH_FORMAT_CUR w)) ;;
  d <- dispatch argv ;;
  teardown (fst d) (snd d).

End Program.

(** ** A world to run the program in

    A stand-in for each collaborator, used to evaluate the program on
    concrete command lines.  [demo_parse_arguments] knows [--version],
    [--help], [--uuid=ID], [--config=FILE] and [--]; it stops at the first
    argument that does not start with two dashes and fails on any other
    option. *)

Module Demo.

Fixpoint scan (args : list string) (i : Z) (with_config : bool)
         (ver help : bool) (uuid cfg : option string) : parsed :=
  match args with
  | [] => mk_parsed i ver help uuid cfg
  | a :: rest =>
      if String.eqb a "--version" then
        scan rest (i + 1) with_config true help uuid cfg
      else if String.eqb a "--help" then
        scan rest (i + 1) with_config ver true uuid cfg
      else if prefix "--uuid=" a then
        scan rest (i + 1) with_config ver help
             (Some (substring 7 (String.length a - 7) a)) cfg
      else if with_config && prefix "--config=" a then
        scan rest (i + 1) with_config ver help uuid
             (Some (substring 9 (String.length a - 9) a))
      else if String.eqb a "--" then mk_parsed (i + 1) ver help uuid cfg
      else if prefix "--" a then mk_parsed (-1) ver help uuid cfg
      else mk_parsed i ver help uuid cfg
  end.

Definition demo_parse_arguments (argv : list string) (options : opt_table)
           (g : globals) (config_file_name : option string) : parsed :=
  scan (skipn 1 argv) 1
       (match options with main_options => true | shared_only => false end)
       (print_version g) (print_help g) (notmuch_requested_db_uuid g)
       config_file_name.

(** [report]: the value of NOTMUCH_TALLOC_REPORT; [writable]: whether
    [fopen] succeeds; [man]: whether [execlp] finds the viewer;
    [status]: what every sub-command returns. *)
Definition demo_world (report : option string) (writable man : bool)
           (status : Z) : world :=
  {| NOTMUCH_VERSION := "0.21";
     NOTMUCH_FORMAT_CUR := 2;
     NOTMUCH_FORMAT_MIN := 0;
     NOTMUCH_FORMAT_MIN_ACTIVE := 1;
     NOTMUCH_EXIT_FORMAT_TOO_NEW := 21;
     NOTMUCH_EXIT_FORMAT_TOO_OLD := 20;
     glib_before_2_35_1 := false;
     parse_arguments := demo_parse_arguments;
     notmuch_database_get_revision := fun db =>
       match database_id db with
       | O => None
       | _ => Some "5e3a1c0e-7d2b"
       end;
     execlp := fun _ _ => man;
     notmuch_config_open := fun _ _ => Some (Config 1);
     notmuch_config_is_new := fun _ => false;
     notmuch_config_get_database_path := fun _ => Some "/home/user/mail";
     notmuch_config_get_user_name := fun _ => Some "User";
     notmuch_config_get_user_primary_email := fun _ =>
       Some "user@example.org";
     subcommand := fun _ _ _ _ g => (g, Done status);
     stat := fun _ => None;
     ENOENT := 2;
     strerror := fun _ => "error";
     getenv := fun v =>
       if String.eqb v "NOTMUCH_TALLOC_REPORT" then report else None;
     fopen := fun _ _ => writable |}.

Definition plain : world := demo_world None true true 0.

End Demo.

(** ** Observations on a run *)

Definition is_open_call (e : event) : bool :=
  match e with ConfigOpen _ _ _ => true | _ => false end.

(** [notmuch_config_open] gave a handle. *)
Definition is_acquire (e : event) : bool :=
  match e with ConfigOpen _ _ (Some _) => true | _ => false end.

Definition is_release (e : event) : bool :=
  match e with ConfigClose _ => true | _ => false end.

Definition is_delegation (e : event) : bool :=
  match e with Execlp _ _ => true | _ => false end.

Definition is_run (e : event) : bool :=
  match e with Run _ _ _ _ => true | _ => false end.

Definition count (p : event -> bool) (t : list event) : nat :=
  List.length (filter p t).

Definition acquired (t : list event) : nat := count is_acquire t.
Definition released (t : list event) : nat := count is_release t.

(** The process ends with the failure status, by [return] from [main]
    or by [exit]. *)
Definition fails (x : list event * globals * res Z) : Prop :=
  result x = Done EXIT_FAILURE \/ result x = Stop (Exited EXIT_FAILURE).

(** The globals when [main] calls [parse_arguments], and what the parser
    answers there. *)
Definition startup (w : world) (g : globals) : globals :=
  mk_globals (print_version g) (print_help g)
             (notmuch_requested_db_uuid g) (NOTMUCH_FORMAT_CUR w).

Definition main_parse (w : world) (argv : list string) (g : globals) : parsed :=
  parse_arguments w argv main_options (startup w g) None.

Definition parsed_globals (w : world) (argv : list string) (g : globals)
  : globals :=
  let p := main_parse w argv g in
  mk_globals (parsed_version p) (parsed_help p) (parsed_uuid p)
             (NOTMUCH_FORMAT_CUR w).

(** What [main] does before it calls the parser. *)
Definition prologue (w : world) : list event :=
  ([Lib "talloc_enable_null_tracking"; Lib "talloc_new"; Lib "g_mime_init"]
     ++ (if glib_before_2_35_1 w then [Lib "g_type_init"] else []))%list.

(** The argument [main] takes for the command name: [argv[i]] when [i]
    is below [argc], NULL otherwise. *)
Definition command_token (argv : list string) (i : Z) : option string :=
  if i <? Z.of_nat (List.length argv) then nth_error argv (Z.to_nat i)
  else None.

(** The file the allocation report goes to: the value of
    NOTMUCH_TALLOC_REPORT when it is set and not empty. *)
Definition report_path (w : world) : option string :=
  match getenv w "NOTMUCH_TALLOC_REPORT" with
  | Some path => if negb (strcmp path "" =? 0) then Some path else None
  | None => None
  end.

(** The status [main] returns when it reaches [DONE] with [r]. *)
Definition final_status (w : world) (r : Z) : Z :=
  match report_path w with
  | Some path => if fopen w path "w" then r else 1
  | None => r
  end.

(** What [main] does from [DONE] on. *)
Definition teardown_events (w : world) (config : option notmuch_config_t)
  : list event :=
  (match config with Some c => [ConfigClose c] | None => [] end
   ++ [Getenv "NOTMUCH_TALLOC_REPORT"]
   ++ match report_path w with
      | Some path =>
          if fopen w path "w"
          then [Fopen path "w" true; TallocReportFull]
          else [Fopen path "w" false;
                Out stderr "ERROR: unable to write talloc log. ";
                Perror path]
      | None => []
      end
   ++ [Lib "talloc_free"])%list.

(** An event of the configuration resource. *)
Definition is_config (e : event) : bool := is_open_call e || is_release e.

(** A computation that does not touch the configuration resource. *)
Definition Quiet {A} (m : M A) : Prop :=
  forall g, count is_config (trace (m g)) = 0%nat.

(** Where [main] stands at the label [DONE]: nothing released yet, and a
    handle acquired exactly when [config] is set. *)
Definition pending (x : list event * globals * res (option notmuch_config_t * Z))
  : Prop :=
  released (trace x) = 0%nat
  /\ match result x with
     | Done (Some _, _) => acquired (trace x) = 1%nat
     | Done (None, _) => acquired (trace x) = 0%nat
     | Stop _ => True
     end.

(** How a call of [exec_man] ends the run of a function that returns an
    [int]: the viewer takes over, or [perror] and [exit (1)]. *)
Definition delegated (w : world) (page : string) (g : globals)
  : list event * globals * res Z :=
  if execlp w "man" ["man"; page]
  then ([Execlp "man" ["man"; page]], g, Stop (Replaced "man" ["man"; page]))
  else ([Execlp "man" ["man"; page]; Perror "exec man"], g, Stop (Exited 1)).

(** The names of the two tables. *)
Definition command_names : list (option string) := map name commands.
Definition topic_names : list string := map topic_name help_topics.

(** Every name of a table is a C string. *)
Definition names_ok (table : list command_t) : Prop :=
  Forall (fun c => match name c with
                   | Some n => cstring n = true
                   | None => True
                   end) table.

(** ** Further observations *)

(** A computation that emits no event of the kind [p]. *)
Definition Free (p : event -> bool) {A} (m : M A) : Prop :=
  forall g, count p (trace (m g)) = 0%nat.

(** A computation that leaves the globals as it found them. *)
Definition Keeps {A} (m : M A) : Prop := forall g, final (m g) = g.

(** A line of the two listings of [usage]. *)
Definition listing (n s : string) : string :=
  "  " ++ fmt_pad12 n ++ "  " ++ s ++ nl.

Definition command_listing : list string :=
  flat_map (fun c => match name c with
                     | Some n => [listing n (summary c)]
                     | None => []
                     end) commands.

Definition topic_listing : list string :=
  map (fun t => listing (topic_name t) (topic_summary t)) help_topics.

(** The texts of [usage] around the two listings. *)
Definition usage_synopsis : string :=
  "Usage: notmuch --help" ++ nl ++
  "       notmuch --version" ++ nl ++
  "       notmuch <command> [args...]" ++ nl.

Definition usage_commands_title : string :=
  "The available commands are as follows:" ++ nl.

Definition usage_topics_title : string :=
  "Additional help topics are as follows:" ++ nl.

Definition usage_hint : string :=
  "Use " ++ dq ++ "notmuch help <command or topic>" ++ dq
    ++ " for more details on each command or topic." ++ nl ++ nl.

(** All that [usage] prints, in order. *)
Definition usage_texts : list string :=
  ([usage_synopsis; nl; usage_commands_title; nl]
   ++ command_listing
   ++ [nl; usage_topics_title; nl]
   ++ topic_listing
   ++ [nl; usage_hint])%list.

(** The first line of the help without a topic. *)
Definition banner : string := "The notmuch mail system." ++ nl ++ nl.

(** The message of [notmuch_command] when [stat] fails for another reason
    than a missing file. *)
Definition stat_error (w : world) (db_path : string) (errno : Z) : string :=
  "Error looking for notmuch database at " ++ db_path ++ ": "
    ++ strerror w errno ++ nl.

(** What the parser answers to [notmuch_minimal_options], and the globals
    it leaves. *)
Definition minimal_parse (w : world) (argv : list string) (g : globals)
  : parsed :=
  parse_arguments w argv shared_only g None.

Definition minimal_globals (w : world) (argv : list string) (g : globals)
  : globals :=
  mk_globals (parsed_version (minimal_parse w argv g))
             (parsed_help (minimal_parse w argv g))
             (parsed_uuid (minimal_parse w argv g))
             (notmuch_format_version g).

(** A function of the table that is defined by a sub-command. *)
Definition external (f : Fn.t) : bool :=
  match f with
  | Fn.notmuch_command | Fn.notmuch_help_command => false
  | _ => true
  end.

(** How [_help_for] ends the process when it is called for the help
    flag: its status becomes the exit status. *)
Definition exit_with (x : list event * globals * res Z)
  : list event * globals * res unit :=
  (trace x, final x,
   match result x with
   | Done r => Stop (Exited r)
   | Stop s => Stop s
   end).

(** A world whose configuration can fail to open or be new, and whose
    [stat] can fail; the rest as in [Demo.plain]. *)
Module Scenario.

Definition world_of (opened : option notmuch_config_t) (fresh : bool)
           (stat_errno : option Z) (setup_status : Z) : world :=
  {| NOTMUCH_VERSION := "0.21";
     NOTMUCH_FORMAT_CUR := 2;
     NOTMUCH_FORMAT_MIN := 0;
     NOTMUCH_FORMAT_MIN_ACTIVE := 1;
     NOTMUCH_EXIT_FORMAT_TOO_NEW := 21;
     NOTMUCH_EXIT_FORMAT_TOO_OLD := 20;
     glib_before_2_35_1 := true;
     parse_arguments := Demo.demo_parse_arguments;
     notmuch_database_get_revision := fun _ => Some "5e3a1c0e-7d2b";
     execlp := fun _ _ => true;
     notmuch_config_open := fun _ _ => opened;
     notmuch_config_is_new := fun _ => fresh;
     notmuch_config_get_database_path := fun _ => Some "/home/user/mail";
     notmuch_config_get_user_name := fun _ => Some "User";
     notmuch_config_get_user_primary_email := fun _ =>
       Some "user@example.org";
     subcommand := fun _ _ _ _ g => (g, Done setup_status);
     stat := fun _ => stat_errno;
     ENOENT := 2;
     strerror := fun _ => "Permission denied";
     getenv := fun _ => None;
     fopen := fun _ _ => true |}.

End Scenario.

(** * Facts *)

(** ** [strcmp] decides equality of C strings *)

Lemma byte_inj (a b : ascii) : byte a = byte b -> a = b.
Proof.
  unfold byte. intros H. apply N2Z.inj in H.
  rewrite <- (ascii_N_embedding a), <- (ascii_N_embedding b). now rewrite H.
Qed.

Lemma strcmp_refl (s : string) : strcmp s s = 0.
Proof.
  induction s as [|c r IH]; simpl; [reflexivity|].
  rewrite Z.eqb_refl. now destruct (byte c =? 0).
Qed.

Lemma strcmp_zero_eq (s1 : string) :
  forall s2, cstring s1 = true -> cstring s2 = true ->
             strcmp s1 s2 = 0 -> s1 = s2.
Proof.
  induction s1 as [|c1 r1 IH]; intros [|c2 r2]; simpl; intros H1 H2 H.
  - reflexivity.
  - apply andb_prop in H2 as [H2 _]. apply negb_true_iff, Z.eqb_neq in H2. lia.
  - apply andb_prop in H1 as [H1 _]. apply negb_true_iff, Z.eqb_neq in H1. lia.
  - apply andb_prop in H1 as [N1 C1]. apply andb_prop in H2 as [N2 C2].
    destruct (byte c1 =? byte c2) eqn:E.
    + apply Z.eqb_eq, byte_inj in E. subst c2.
      apply negb_true_iff in N1. rewrite N1 in H.
      f_equal. now apply IH.
    + apply Z.eqb_neq in E. lia.
Qed.

Lemma strcmp_eq_iff (s1 s2 : string) :
  cstring s1 = true -> cstring s2 = true ->
  (strcmp s1 s2 = 0 <-> s1 = s2).
Proof.
  intros H1 H2. split.
  - now apply strcmp_zero_eq.
  - intros ->. apply strcmp_refl.
Qed.

Lemma strcmp_neq (s1 s2 : string) :
  cstring s1 = true -> cstring s2 = true -> s1 <> s2 ->
  (strcmp s1 s2 =? 0) = false.
Proof.
  intros H1 H2 N. apply Z.eqb_neq. intros E. apply N.
  now apply strcmp_zero_eq.
Qed.

(** ** Command resolution *)

Lemma commands_names_ok : names_ok commands.
Proof. unfold names_ok, commands. repeat constructor. Qed.

Lemma find_command_in_sound (table : list command_t) (n : string) (c : command_t) :
  cstring n = true -> names_ok table ->
  find_command_in table (Some n) = Some c ->
  In c table /\ name c = Some n.
Proof.
  intros Hn Hok. induction Hok as [|d rest Hd Hrest IH]; simpl; [discriminate|].
  unfold command_matches. destruct (name d) as [dn|] eqn:E.
  - destruct (strcmp n dn =? 0) eqn:S.
    + intros H. inversion H; subst c. split; [now left|].
      rewrite E. f_equal. symmetry. apply strcmp_zero_eq; auto.
      now apply Z.eqb_eq.
    + intros H. destruct (IH H). split; [now right | assumption].
  - intros H. destruct (IH H). split; [now right | assumption].
Qed.

Lemma find_command_in_complete (table : list command_t) (n : string) :
  In (Some n) (map name table) ->
  exists c, find_command_in table (Some n) = Some c.
Proof.
  induction table as [|d rest IH]; cbn [map In find_command_in]; [contradiction|].
  intros [H|H].
  - unfold command_matches. rewrite H, strcmp_refl. simpl. now exists d.
  - destruct (command_matches (Some n) d); [now exists d | now apply IH].
Qed.

Lemma find_command_in_absent (table : list command_t) (n : string) :
  cstring n = true -> names_ok table ->
  ~ In (Some n) (map name table) ->
  find_command_in table (Some n) = None.
Proof.
  intros Hn Hok Hno.
  destruct (find_command_in table (Some n)) as [c|] eqn:E; [|reflexivity].
  destruct (find_command_in_sound table n c Hn Hok E) as [Hin Hname].
  exfalso. apply Hno. rewrite <- Hname. now apply in_map.
Qed.

(** C4. [find_command] resolves by exact string equality: each entry of
    the table is found under its own name (the entry without a name under
    the NULL name, and it is the only such entry); a C string that is a
    registered name yields an entry with exactly that name; a C string
    that is no registered name yields NULL. *)
Theorem find_command_exact (n : string) (Hn : cstring n = true) :
  Forall (fun c => find_command (name c) = Some c) commands
  /\ (exists d, find_command None = Some d /\ name d = None
                /\ forall c, In c commands -> name c = None -> c = d)
  /\ (In (Some n) command_names ->
      exists c, find_command (Some n) = Some c
                /\ In c commands /\ name c = Some n)
  /\ (~ In (Some n) command_names -> find_command (Some n) = None).
Proof.
  split; [|split; [|split]].
  - unfold commands. repeat constructor.
  - eexists. split; [reflexivity|]. split; [reflexivity|].
    intros c Hc Hnone. simpl in Hc.
    repeat (destruct Hc as [Hc|Hc]; [subst c; first [reflexivity|discriminate]|]).
    contradiction.
  - intros Hin. destruct (find_command_in_complete commands n Hin) as [c Hc].
    exists c. split; [exact Hc|].
    exact (find_command_in_sound commands n c Hn commands_names_ok Hc).
  - intros Hno.
    exact (find_command_in_absent commands n Hn commands_names_ok Hno).
Qed.

(** No prefix matching and no case folding: a prefix of "search" and its
    upper-case spelling are not found, "search" is. *)
Lemma find_command_exact_witness :
  cstring "SEARCH" = true
  /\ find_command (Some "SEARCH") = None
  /\ find_command (Some "sea") = None
  /\ exists c, find_command (Some "search") = Some c
               /\ In c commands /\ name c = Some "search".
Proof.
  split; [reflexivity|]. split; [|split].
  - apply (find_command_exact "SEARCH" eq_refl).
    intros H. simpl in H.
    repeat (destruct H as [H|H]; [discriminate|]). exact H.
  - apply (find_command_exact "sea" eq_refl).
    intros H. simpl in H.
    repeat (destruct H as [H|H]; [discriminate|]). exact H.
  - apply (find_command_exact "search" eq_refl).
    simpl. do 4 right. now left.
Defined.

(** ** Occurrence of a string in a message *)

Lemma append_assoc (a b c : string) : (a ++ b) ++ c = a ++ b ++ c.
Proof. induction a as [|x a IH]; simpl; [reflexivity | now rewrite IH]. Qed.

Lemma contains_here (t post : string) : contains (t ++ post) t.
Proof. exists "", post. reflexivity. Qed.

Lemma contains_after (pre s t : string) : contains s t -> contains (pre ++ s) t.
Proof.
  intros (a & b & ->). exists (pre ++ a), b. now rewrite append_assoc.
Qed.

Create HintDb contains.
#[local] Hint Resolve contains_here contains_after : contains.

(** ** The format gate *)

Section FormatGate.

Variable w : world.

Local Abbreviation CUR := (NOTMUCH_FORMAT_CUR w).
Local Abbreviation MIN := (NOTMUCH_FORMAT_MIN w).
Local Abbreviation MIN_ACTIVE := (NOTMUCH_FORMAT_MIN_ACTIVE w).

Lemma fmt_d_reads_back (n : Z) :
  option_map Z.of_int (NilZero.int_of_string (fmt_d n)) = Some n.
Proof.
  unfold fmt_d. rewrite NilZero.isi.
  - simpl. now rewrite DecimalZ.of_to.
  - destruct n; simpl; try discriminate.
    intros H. injection H. apply DecimalPos.Unsigned.to_uint_nonnil.
  - destruct n; simpl; try discriminate.
    intros H. injection H. apply DecimalPos.Unsigned.to_uint_nonnil.
Qed.

(** C1. With MIN <= MIN_ACTIVE <= CUR the gate has four outcomes, by the
    requested version [v]: above CUR it prints on the error stream the
    message that names [v] and CUR and exits with
    NOTMUCH_EXIT_FORMAT_TOO_NEW; below MIN it prints the message that
    names [v] and MIN and exits with NOTMUCH_EXIT_FORMAT_TOO_OLD; from MIN
    to below MIN_ACTIVE it prints the deprecation warning with [v] and
    returns; from MIN_ACTIVE to CUR it returns and prints nothing.  At
    [v] = MIN, MIN_ACTIVE or CUR it returns.  The messages are given
    word for word; a version is written as its decimal numeral, which
    reads back as the version. *)
Theorem format_gate_cases (g : globals)
        (Hord : MIN <= MIN_ACTIVE /\ MIN_ACTIVE <= CUR) :
  let v := notmuch_format_version g in
  let run := notmuch_exit_if_unsupported_format w g in
  (v > CUR ->
     run = ([Out stderr
               ("A caller requested output format version " ++ fmt_d v
                  ++ ", but the installed notmuch" ++ nl
                  ++ "CLI only supports up to format version " ++ fmt_d CUR
                  ++ ".  You may need to upgrade your" ++ nl
                  ++ "notmuch CLI." ++ nl)], g,
            Stop (Exited (NOTMUCH_EXIT_FORMAT_TOO_NEW w))))
  /\ (v < MIN ->
       run = ([Out stderr
                 ("A caller requested output format version " ++ fmt_d v
                    ++ ", which is no longer supported" ++ nl
                    ++ "by the notmuch CLI (it requires at least version "
                    ++ fmt_d MIN ++ ").  You may need to" ++ nl
                    ++ "upgrade your notmuch front-end." ++ nl)], g,
              Stop (Exited (NOTMUCH_EXIT_FORMAT_TOO_OLD w))))
  /\ (MIN <= v < MIN_ACTIVE ->
       run = ([Out stderr
                 ("A caller requested deprecated output format version "
                    ++ fmt_d v ++ ", which may not" ++ nl
                    ++ "be supported in the future." ++ nl)], g, Done tt))
  /\ (MIN_ACTIVE <= v <= CUR -> run = ([], g, Done tt))
  /\ (v = MIN \/ v = MIN_ACTIVE \/ v = CUR -> result run = Done tt)
  /\ (forall n, option_map Z.of_int (NilZero.int_of_string (fmt_d n))
                = Some n).
Proof.
  intros v run. subst run.
  unfold notmuch_exit_if_unsupported_format, bind, get, fprintf, emit,
    exit, halt, ret, result, too_new, too_old, deprecated.
  fold v. cbn [fst snd app].
  destruct (v >? CUR) eqn:E1;
    [apply Z.gtb_lt in E1 | rewrite Z.gtb_ltb in E1; apply Z.ltb_ge in E1];
    (destruct (v <? MIN) eqn:E2;
     [apply Z.ltb_lt in E2 | apply Z.ltb_ge in E2]);
    (destruct (v <? MIN_ACTIVE) eqn:E3;
     [apply Z.ltb_lt in E3 | apply Z.ltb_ge in E3]);
    cbn [fst snd app];
    (split; [|split; [|split; [|split; [|split]]]]);
    try exact fmt_d_reads_back; intros H;
    try lia; reflexivity.
Qed.

End FormatGate.

(** The versions of the demonstration world: MIN = 0, MIN_ACTIVE = 1,
    CUR = 2.  Version -1 is too old, 0 is deprecated, 2 is silent, 3 is
    too new. *)
Lemma format_gate_cases_witness :
  (0 <= 1 /\ 1 <= 2)
  /\ notmuch_exit_if_unsupported_format Demo.plain
       (mk_globals false false None (-1))
     = ([Out stderr
           ("A caller requested output format version -1, which is no longer supported"
              ++ nl
              ++ "by the notmuch CLI (it requires at least version 0).  You may need to"
              ++ nl ++ "upgrade your notmuch front-end." ++ nl)],
        mk_globals false false None (-1), Stop (Exited 20))
  /\ notmuch_exit_if_unsupported_format Demo.plain (mk_globals false false None 0)
     = ([Out stderr
           ("A caller requested deprecated output format version 0, which may not"
              ++ nl ++ "be supported in the future." ++ nl)],
        mk_globals false false None 0, Done tt)
  /\ notmuch_exit_if_unsupported_format Demo.plain (mk_globals false false None 2)
     = ([], mk_globals false false None 2, Done tt)
  /\ notmuch_exit_if_unsupported_format Demo.plain (mk_globals false false None 3)
     = ([Out stderr
           ("A caller requested output format version 3, but the installed notmuch"
              ++ nl
              ++ "CLI only supports up to format version 2.  You may need to upgrade your"
              ++ nl ++ "notmuch CLI." ++ nl)],
        mk_globals false false None 3, Stop (Exited 21)).
Proof.
  assert (Hord : 0 <= 1 /\ 1 <= 2) by lia.
  split; [exact Hord|]. split; [|split; [|split]].
  - destruct (format_gate_cases Demo.plain (mk_globals false false None (-1))
                Hord) as (_ & H & _).
    rewrite H; [reflexivity | simpl; lia].
  - destruct (format_gate_cases Demo.plain (mk_globals false false None 0)
                Hord) as (_ & _ & H & _).
    rewrite H; [reflexivity | simpl; lia].
  - destruct (format_gate_cases Demo.plain (mk_globals false false None 2)
                Hord) as (_ & _ & _ & H & _).
    rewrite H; [reflexivity | simpl; lia].
  - destruct (format_gate_cases Demo.plain (mk_globals false false None 3)
                Hord) as (H & _).
    rewrite H; [reflexivity | simpl; lia].
Defined.

(** ** The database identity gate *)

Section UuidGate.

Variable w : world.
Variable notmuch : notmuch_database_t.

Local Abbreviation gate := (notmuch_exit_if_unmatched_db_uuid w notmuch).

Lemma gate_unset (g : globals) :
  notmuch_requested_db_uuid g = None -> gate g = ([], g, Done tt).
Proof.
  intros H. unfold notmuch_exit_if_unmatched_db_uuid, bind, get.
  now rewrite H.
Qed.

Lemma gate_set (g : globals) (r a : string) :
  notmuch_requested_db_uuid g = Some r ->
  notmuch_database_get_revision w notmuch = Some a ->
  gate g =
    if strcmp r a =? 0 then ([GetRevision notmuch], g, Done tt)
    else ([GetRevision notmuch; Out stderr (unmatched r a)], g,
          Stop (Exited 1)).
Proof.
  intros Hr Ha.
  unfold notmuch_exit_if_unmatched_db_uuid, strcmp_ptr, bind, get,
    emit, deref, fprintf, emit, exit, halt, ret.
  rewrite Hr, Ha. cbn [fst snd app].
  now destruct (strcmp r a =? 0).
Qed.

(** C2. With the database's identifier [a] at hand, the gate does
    nothing at all exactly when no identifier was requested; with a
    requested identifier [r] it asks the database and returns exactly
    when [r] and [a] are the same string, and otherwise prints a message
    with both and exits with status 1. *)
Theorem uuid_gate_cases (g : globals) (a : string)
        (Ha : notmuch_database_get_revision w notmuch = Some a)
        (Hca : cstring a = true)
        (Hcr : forall r, notmuch_requested_db_uuid g = Some r ->
                         cstring r = true) :
  (notmuch_requested_db_uuid g = None <-> gate g = ([], g, Done tt))
  /\ forall r, notmuch_requested_db_uuid g = Some r ->
       (result (gate g) = Done tt <-> r = a)
       /\ (r = a -> gate g = ([GetRevision notmuch], g, Done tt))
       /\ (r <> a ->
           gate g = ([GetRevision notmuch; Out stderr (unmatched r a)], g,
                     Stop (Exited 1))
           /\ contains (unmatched r a) r /\ contains (unmatched r a) a).
Proof.
  split.
  - split; [apply gate_unset|].
    destruct (notmuch_requested_db_uuid g) as [r|] eqn:Hr; [|reflexivity].
    rewrite (gate_set g r a Hr Ha).
    destruct (strcmp r a =? 0); discriminate.
  - intros r Hr. rewrite (gate_set g r a Hr Ha).
    specialize (Hcr r Hr).
    pose proof (strcmp_eq_iff r a Hcr Hca) as Heq.
    destruct (strcmp r a =? 0) eqn:E.
    + apply Z.eqb_eq in E. apply Heq in E.
      split; [split; auto|]. split; [reflexivity|]. intros N. contradiction.
    + apply Z.eqb_neq in E.
      assert (N : r <> a) by (intros ->; apply E, strcmp_refl).
      split; [split; [discriminate | intros; contradiction]|].
      split; [intros; contradiction|]. intros _.
      split; [reflexivity|]. unfold unmatched. split; auto 8 with contains.
Qed.

(** C8, as amended.  With an identifier requested, the gate asks the
    database and drops what the query returns; it has no test for a
    failed query and goes on to compare the requested identifier with the
    one the query stored.  When the query stored an identifier, the
    comparison decides: equal strings return, different strings print the
    message with both and exit with status 1.  When the query stored
    none, [strcmp] is given a NULL pointer: the comparison is defined
    exactly when an identifier is there. *)
Theorem uuid_gate_after_query (g : globals) (r : string)
        (Hr : notmuch_requested_db_uuid g = Some r)
        (Hcr : cstring r = true) :
  (exists rest, trace (gate g) = GetRevision notmuch :: rest)
  /\ (forall a, notmuch_database_get_revision w notmuch = Some a ->
                cstring a = true ->
                (r = a -> gate g = ([GetRevision notmuch], g, Done tt))
                /\ (r <> a ->
                    gate g
                    = ([GetRevision notmuch;
                        Out stderr ("Error: requested database revision " ++ r
                                      ++ " does not match " ++ a ++ nl)],
                       g, Stop (Exited 1))))
  /\ (notmuch_database_get_revision w notmuch = None ->
      gate g = ([GetRevision notmuch], g, Stop Undefined))
  /\ (result (gate g) <> Stop Undefined
      <-> exists a, notmuch_database_get_revision w notmuch = Some a).
Proof.
  destruct (notmuch_database_get_revision w notmuch) as [a|] eqn:Ha.
  - rewrite (gate_set g r a Hr Ha).
    split; [destruct (strcmp r a =? 0); eexists; reflexivity|].
    split.
    { intros a' Ha' Hca. inversion Ha'. subst a'.
      pose proof (strcmp_eq_iff r a Hcr Hca) as Heq.
      destruct (strcmp r a =? 0) eqn:E.
      - apply Z.eqb_eq in E. apply Heq in E.
        split; [reflexivity | intros N; contradiction].
      - apply Z.eqb_neq in E.
        split; [intros ->; exfalso; apply E, strcmp_refl | reflexivity]. }
    split; [discriminate|].
    split; [intros _; now exists a|].
    intros _. destruct (strcmp r a =? 0); discriminate.
  - assert (E : gate g = ([GetRevision notmuch], g, Stop Undefined)).
    { unfold notmuch_exit_if_unmatched_db_uuid, strcmp_ptr, bind, get, emit,
        deref, halt, ret.
      rewrite Hr, Ha. cbn [app]. reflexivity. }
    rewrite E. split; [now exists []|].
    split; [discriminate|]. split; [reflexivity|].
    split; [intros H; now contradiction H | intros (a & H); discriminate H].
Qed.

End UuidGate.

(** The stored identifier is "5e3a1c0e-7d2b": the same request passes, the
    request in upper case does not. *)
Lemma uuid_gate_cases_witness :
  let g := mk_globals false false (Some "5E3A1C0E-7D2B") 2 in
  let g' := mk_globals false false (Some "5e3a1c0e-7d2b") 2 in
  notmuch_database_get_revision Demo.plain (Database 1) = Some "5e3a1c0e-7d2b"
  /\ cstring "5e3a1c0e-7d2b" = true
  /\ result (notmuch_exit_if_unmatched_db_uuid Demo.plain (Database 1) g)
     = Stop (Exited 1)
  /\ notmuch_exit_if_unmatched_db_uuid Demo.plain (Database 1) g'
     = ([GetRevision (Database 1)], g', Done tt).
Proof.
  intros g g'. split; [reflexivity|]. split; [reflexivity|].
  split.
  - destruct (uuid_gate_cases Demo.plain (Database 1) g "5e3a1c0e-7d2b"
                eq_refl eq_refl) as [_ H].
    + intros r Hr. inversion Hr. reflexivity.
    + destruct (H "5E3A1C0E-7D2B" eq_refl) as (_ & _ & Hne).
      destruct Hne as [-> _]; [discriminate | reflexivity].
  - destruct (uuid_gate_cases Demo.plain (Database 1) g' "5e3a1c0e-7d2b"
                eq_refl eq_refl) as [_ H].
    + intros r Hr. inversion Hr. reflexivity.
    + destruct (H "5e3a1c0e-7d2b" eq_refl) as (_ & Heq & _).
      apply Heq. reflexivity.
Defined.

(** Database 1 holds "5e3a1c0e-7d2b"; the request "abc" does not match. *)
Lemma uuid_gate_after_query_witness :
  let g := mk_globals false false (Some "abc") 2 in
  notmuch_requested_db_uuid g = Some "abc"
  /\ cstring "abc" = true
  /\ notmuch_exit_if_unmatched_db_uuid Demo.plain (Database 1) g
     = ([GetRevision (Database 1);
         Out stderr
           ("Error: requested database revision abc does not match 5e3a1c0e-7d2b"
              ++ nl)],
        g, Stop (Exited 1)).
Proof.
  intros g. split; [reflexivity|]. split; [reflexivity|].
  destruct (uuid_gate_after_query Demo.plain (Database 1) g "abc"
              eq_refl eq_refl) as (_ & H & _).
  destruct (H "5e3a1c0e-7d2b" eq_refl eq_refl) as (_ & Hne).
  rewrite Hne; [reflexivity | discriminate].
Defined.

(** C8 as stated fails: database 0 of the demonstration world answers
    the query without an identifier; with "abc" requested the comparison
    has a NULL argument and decides nothing: the gate neither returns nor
    reports a mismatch. *)
Lemma uuid_gate_undefined_without_identifier :
  let g := mk_globals false false (Some "abc") 2 in
  let run := notmuch_exit_if_unmatched_db_uuid Demo.plain (Database 0) g in
  notmuch_database_get_revision Demo.plain (Database 0) = None
  /\ run = ([GetRevision (Database 0)], g, Stop Undefined)
  /\ result run <> Done tt
  /\ result run <> Stop (Exited 1)
  /\ ~ (exists f text, In (Out f text) (trace run)).
Proof.
  intros g run. split; [reflexivity|]. split; [reflexivity|].
  split; [discriminate|]. split; [discriminate|].
  intros (f & text & H). simpl in H.
  destruct H as [H|H]; [discriminate | exact H].
Qed.

(** ** Running a sequence *)

Lemma bind_done {A B} (m : M A) (k : A -> M B) (g g1 : globals)
      (t1 : list event) (a : A) :
  m g = (t1, g1, Done a) ->
  bind m k g = ((t1 ++ trace (k a g1))%list, final (k a g1), result (k a g1)).
Proof.
  intros H. unfold bind, trace, final, result. rewrite H.
  now destruct (k a g1) as [[t2 g2] r].
Qed.

Lemma bind_stop {A B} (m : M A) (k : A -> M B) (g g1 : globals)
      (t1 : list event) (s : stop) :
  m g = (t1, g1, Stop s) -> bind m k g = (t1, g1, Stop s).
Proof. intros H. unfold bind. now rewrite H. Qed.

(** ** The help resolver *)

Section Help.

Variable w : world.

Lemma exec_man_run (page : string) (g : globals) :
  exec_man w page g =
    if execlp w "man" ["man"; page]
    then ([Execlp "man" ["man"; page]], g,
          Stop (Replaced "man" ["man"; page]))
    else ([Execlp "man" ["man"; page]; Perror "exec man"], g,
          Stop (Exited 1)).
Proof.
  unfold exec_man, bind, emit, halt, exit, halt.
  now destruct (execlp w "man" ["man"; page]).
Qed.

(** [exec_man] never comes back to its caller. *)
Lemma exec_man_stops (page : string) (g : globals) :
  exists t s, exec_man w page g = (Execlp "man" ["man"; page] :: t, g, Stop s).
Proof.
  rewrite exec_man_run. destruct (execlp w "man" ["man"; page]); eauto.
Qed.

Lemma not_help (t : string) :
  cstring t = true -> find_command (Some t) = None ->
  (strcmp t "help" =? 0) = false.
Proof.
  intros Ht Hf. apply strcmp_neq; [assumption | reflexivity |].
  intros ->. discriminate.
Qed.

(** A name of neither table. *)
Lemma help_for_unknown (t : string) (g : globals) :
  cstring t = true -> find_command (Some t) = None ->
  ~ In t topic_names ->
  _help_for w (Some t) g = ([Out stderr (not_known t)], g, Done EXIT_FAILURE).
Proof.
  intros Ht Hf Hno. unfold _help_for.
  rewrite (not_help t Ht Hf), Hf.
  assert (H1 : (strcmp t "search-terms" =? 0) = false).
  { apply strcmp_neq; [assumption | reflexivity |].
    intros ->. apply Hno. simpl. auto. }
  assert (H2 : (strcmp t "hooks" =? 0) = false).
  { apply strcmp_neq; [assumption | reflexivity |].
    intros ->. apply Hno. simpl. auto. }
  unfold bind, for_each, help_topics, topic_name, ret, fprintf, emit.
  now rewrite H1, H2.
Qed.

(** The name of a command other than "help". *)
Lemma help_for_command (t : string) (c : command_t) (g : globals) :
  cstring t = true -> (strcmp t "help" =? 0) = false ->
  find_command (Some t) = Some c ->
  _help_for w (Some t) g = delegated w ("notmuch-" ++ t) g.
Proof.
  intros Ht Hh Hf. unfold _help_for. rewrite Hh, Hf.
  destruct (find_command_in_sound commands t c Ht commands_names_ok Hf)
    as [_ Hn].
  rewrite Hn.
  unfold delegated, bind, deref, exec_man, emit, halt, exit, halt, ret.
  now destruct (execlp w "man" ["man"; "notmuch-" ++ t]).
Qed.

(** The name of a help topic that is no command. *)
Lemma help_for_topic (t : string) (g : globals) :
  cstring t = true -> find_command (Some t) = None ->
  In t topic_names ->
  _help_for w (Some t) g = delegated w ("notmuch-" ++ t) g.
Proof.
  intros Ht Hf Hin. unfold _help_for.
  rewrite (not_help t Ht Hf), Hf.
  simpl in Hin. destruct Hin as [<-|[<-|[]]];
    unfold delegated, bind, for_each, help_topics, topic_name, exec_man,
      emit, halt, exit, halt, ret;
    repeat match goal with
           | |- context [execlp w ?f ?a] => destruct (execlp w f a)
           end; reflexivity.
Qed.

End Help.

(** ** Counting the events of the configuration *)

Lemma count_app (p : event -> bool) (t1 t2 : list event) :
  count p (t1 ++ t2) = (count p t1 + count p t2)%nat.
Proof. unfold count. now rewrite filter_app, length_app. Qed.

Lemma count_config_zero (t : list event) :
  count is_config t = 0%nat ->
  acquired t = 0%nat /\ released t = 0%nat /\ count is_open_call t = 0%nat.
Proof.
  unfold acquired, released, count, is_config.
  induction t as [|e t IH]; simpl; [auto|].
  destruct e; simpl; try discriminate; try exact IH.
Qed.

Lemma quiet_ret {A} (a : A) : Quiet (ret a).
Proof. intros g. reflexivity. Qed.

Lemma quiet_halt {A} (s : stop) : Quiet (@halt A s).
Proof. intros g. reflexivity. Qed.

Lemma quiet_get : Quiet get.
Proof. intros g. reflexivity. Qed.

Lemma quiet_emit (e : event) : is_config e = false -> Quiet (emit e).
Proof. intros H g. unfold emit, trace, count. simpl. now rewrite H. Qed.

Lemma quiet_bind {A B} (m : M A) (k : A -> M B) :
  Quiet m -> (forall a, Quiet (k a)) -> Quiet (bind m k).
Proof.
  intros Hm Hk g. specialize (Hm g). unfold bind.
  destruct (m g) as [[t1 g1] [a|s]]; [|exact Hm].
  specialize (Hk a g1). destruct (k a g1) as [[t2 g2] r].
  unfold trace in *. simpl in *. rewrite count_app. lia.
Qed.

Lemma quiet_for_each {A} (l : list A) (body : A -> M unit) :
  (forall a, Quiet (body a)) -> Quiet (for_each l body).
Proof.
  intros H. induction l as [|a l IH]; simpl.
  - apply quiet_ret.
  - apply quiet_bind; auto.
Qed.

Create HintDb quiet.
#[local] Hint Resolve quiet_ret quiet_halt quiet_get quiet_bind
  quiet_for_each : quiet.
#[local] Hint Extern 1 (Quiet (emit _)) =>
  apply quiet_emit; reflexivity : quiet.
#[local] Hint Extern 1 (Quiet (fprintf _ _)) =>
  apply quiet_emit; reflexivity : quiet.
#[local] Hint Extern 1 (Quiet (printf _)) =>
  apply quiet_emit; reflexivity : quiet.
#[local] Hint Extern 1 (Quiet (exit _)) => apply quiet_halt : quiet.
#[local] Hint Extern 2 (Quiet (if ?b then _ else _)) => destruct b : quiet.
#[local] Hint Extern 2 (Quiet (match ?o with Some _ => _ | None => _ end)) =>
  destruct o : quiet.
#[local] Hint Extern 3 (forall _, Quiet _) => intro : quiet.

Ltac quiet := auto 20 with quiet.

Section QuietFunctions.

Variable w : world.

Lemma quiet_deref (p : option string) : Quiet (deref p).
Proof. unfold deref. quiet. Qed.

Lemma quiet_arg_at (argv : list string) (i : Z) : Quiet (arg_at argv i).
Proof. unfold arg_at. quiet. Qed.

Lemma quiet_run_parse_arguments argv options config_file_name :
  Quiet (run_parse_arguments w argv options config_file_name).
Proof. intros g. reflexivity. Qed.

Lemma quiet_run_subcommand f config argc argv :
  Quiet (run_subcommand w f config argc argv).
Proof.
  intros g. unfold run_subcommand.
  now destruct (subcommand w f config argc argv g).
Qed.

Hint Resolve quiet_deref quiet_arg_at quiet_run_parse_arguments
  quiet_run_subcommand : quiet.

Lemma quiet_usage (out : stream) : Quiet (usage out).
Proof. unfold usage. quiet. Qed.

Lemma quiet_exec_man (page : string) : Quiet (exec_man w page).
Proof. unfold exec_man. quiet. Qed.

Hint Resolve quiet_usage quiet_exec_man : quiet.

Lemma quiet_help_for (topic : option string) : Quiet (_help_for w topic).
Proof. unfold _help_for. quiet. Qed.

Hint Resolve quiet_help_for : quiet.

Lemma quiet_process_shared_options (name0 : option string) :
  Quiet (notmuch_process_shared_options w name0).
Proof. unfold notmuch_process_shared_options. quiet. Qed.

Hint Resolve quiet_process_shared_options : quiet.

Lemma quiet_minimal_options name0 argc argv :
  Quiet (notmuch_minimal_options w name0 argc argv).
Proof. unfold notmuch_minimal_options. quiet. Qed.

Hint Resolve quiet_minimal_options : quiet.

Lemma quiet_help_command argc argv : Quiet (notmuch_help_command w argc argv).
Proof. unfold notmuch_help_command. quiet. Qed.

Lemma quiet_notmuch_command config : Quiet (notmuch_command w config).
Proof. unfold notmuch_command. quiet. Qed.

Lemma quiet_call f config argc argv : Quiet (call w f config argc argv).
Proof.
  destruct f; simpl;
    first [apply quiet_notmuch_command | apply quiet_help_command
          | apply quiet_run_subcommand].
Qed.

End QuietFunctions.

(** ** The steps of [main] *)

Section Main.

Variable w : world.

Lemma shared_options_run (name0 : option string) (g : globals) :
  notmuch_process_shared_options w name0 g =
    if print_version g then
      ([Out stdout ("notmuch " ++ NOTMUCH_VERSION w ++ nl)], g,
       Stop (Exited EXIT_SUCCESS))
    else if print_help g then
      (trace (_help_for w name0 g), final (_help_for w name0 g),
       match result (_help_for w name0 g) with
       | Done r => Stop (Exited r)
       | Stop s => Stop s
       end)
    else ([], g, Done tt).
Proof.
  unfold notmuch_process_shared_options, bind, get, printf, fprintf, emit,
    exit, halt, ret, trace, final, result.
  destruct (print_version g); [reflexivity|].
  destruct (print_help g); [|reflexivity].
  destruct (_help_for w name0 g) as [[t g'] [r|s]]; simpl;
    now rewrite ?app_nil_r.
Qed.

Lemma command_name_run (argv : list string) (i : Z) (g : globals) :
  0 <= i ->
  (if i <? Z.of_nat (List.length argv) then arg_at argv i else ret None) g
  = ([], g, Done (command_token argv i)).
Proof.
  intros Hi. unfold command_token.
  destruct (i <? Z.of_nat (List.length argv)) eqn:E; [|reflexivity].
  apply Z.ltb_lt in E. unfold arg_at.
  replace (i <? 0) with false by (symmetry; apply Z.ltb_ge; lia).
  destruct (nth_error argv (Z.to_nat i)) as [s|] eqn:N; [reflexivity|].
  apply nth_error_None in N. lia.
Qed.

Lemma teardown_run (config : option notmuch_config_t) (r : Z) (g : globals) :
  teardown w config r g
  = (teardown_events w config, g, Done (final_status w r)).
Proof.
  unfold teardown, teardown_events, final_status, report_path, bind, emit,
    fprintf, emit, ret.
  destruct config as [c|];
    (destruct (getenv w "NOTMUCH_TALLOC_REPORT") as [path|];
     [destruct (negb (strcmp path "" =? 0));
      [destruct (fopen w path "w")|]|]); reflexivity.
Qed.

Lemma teardown_counts (config : option notmuch_config_t) :
  acquired (teardown_events w config) = 0%nat
  /\ released (teardown_events w config)
     = match config with Some _ => 1%nat | None => 0%nat end
  /\ count is_open_call (teardown_events w config) = 0%nat.
Proof.
  unfold teardown_events.
  destruct config; destruct (report_path w) as [path|];
    try destruct (fopen w path "w"); repeat split.
Qed.

Lemma prologue_counts :
  acquired (prologue w) = 0%nat /\ released (prologue w) = 0%nat
  /\ count is_open_call (prologue w) = 0%nat.
Proof. unfold prologue. destruct (glib_before_2_35_1 w); repeat split. Qed.

Variable argv : list string.
Variable g : globals.

Local Abbreviation p := (main_parse w argv g).
Local Abbreviation g1 := (parsed_globals w argv g).
Local Abbreviation argc := (Z.of_nat (List.length argv)).

(** [main] is its prologue, then [dispatch], then [teardown] unless the
    process ended before. *)
Lemma main_run :
  main w argv g =
    let d := dispatch w argv (startup w g) in
    match result d with
    | Done (config, r) =>
        ((prologue w ++ trace d ++ teardown_events w config)%list, final d,
         Done (final_status w r))
    | Stop s => ((prologue w ++ trace d)%list, final d, Stop s)
    end.
Proof.
  unfold main, prologue, bind, emit, get, put, ret, trace, final, result,
    startup.
  destruct (glib_before_2_35_1 w); cbn [fst snd app];
    match goal with
    | |- context [dispatch w argv ?x] =>
        destruct (dispatch w argv x) as [[t g'] [[config r]|s]]
    end;
    cbn [fst snd app]; rewrite ?teardown_run; reflexivity.
Qed.

(** What [dispatch] does once the parser has answered. *)
Lemma parse_step :
  run_parse_arguments w argv main_options None (startup w g)
  = ([ParseArguments argv], g1, Done (opt_index p, parsed_config p)).
Proof. reflexivity. Qed.

Lemma dispatch_parse_failure :
  opt_index p < 0 ->
  dispatch w argv (startup w g)
  = ([ParseArguments argv], g1, Done (None, EXIT_FAILURE)).
Proof.
  intros H. unfold dispatch. rewrite (bind_done _ _ _ _ _ _ parse_step).
  cbn [fst snd]. apply Z.ltb_lt in H. rewrite H. reflexivity.
Qed.

(** After a successful parse: the shared options with the command
    name, then the rest. *)
Lemma dispatch_shared_stop (t : list event) (g2 : globals) (s : stop) :
  0 <= opt_index p ->
  notmuch_process_shared_options w (command_token argv (opt_index p)) g1
  = (t, g2, Stop s) ->
  dispatch w argv (startup w g)
  = (ParseArguments argv :: t, g2, Stop s).
Proof.
  intros H Hs. unfold dispatch. rewrite (bind_done _ _ _ _ _ _ parse_step).
  cbn [fst snd].
  replace (opt_index p <? 0) with false by (symmetry; apply Z.ltb_ge; lia).
  rewrite (bind_done _ _ _ _ _ _ (command_name_run argv _ g1 H)).
  rewrite (bind_stop _ _ _ _ _ _ Hs). reflexivity.
Qed.

Lemma dispatch_unknown (n : string) :
  0 <= opt_index p ->
  parsed_version p = false -> parsed_help p = false ->
  command_token argv (opt_index p) = Some n ->
  find_command (Some n) = None ->
  dispatch w argv (startup w g)
  = ([ParseArguments argv; Out stderr (unknown_command n)], g1,
     Done (None, EXIT_FAILURE)).
Proof.
  intros H Hv Hh Hn Hf. unfold dispatch.
  rewrite (bind_done _ _ _ _ _ _ parse_step).
  cbn [fst snd].
  replace (opt_index p <? 0) with false by (symmetry; apply Z.ltb_ge; lia).
  rewrite (bind_done _ _ _ _ _ _ (command_name_run argv _ g1 H)).
  rewrite Hn.
  assert (Hs : notmuch_process_shared_options w (Some n) g1 = ([], g1, Done tt)).
  { rewrite shared_options_run. unfold parsed_globals.
    cbn [print_version print_help]. now rewrite Hv, Hh. }
  rewrite (bind_done _ _ _ _ _ _ Hs). rewrite Hf. reflexivity.
Qed.

Lemma shared_options_pass (name0 : option string) :
  parsed_version p = false -> parsed_help p = false ->
  notmuch_process_shared_options w name0 g1 = ([], g1, Done tt).
Proof.
  intros Hv Hh. rewrite shared_options_run. unfold parsed_globals.
  cbn [print_version print_help]. now rewrite Hv, Hh.
Qed.

(** The command is found, its configuration opens and its function
    returns [r]. *)
Lemma dispatch_handler (command : command_t) (c : notmuch_config_t)
      (t : list event) (g2 : globals) (r : Z) :
  0 <= opt_index p ->
  parsed_version p = false -> parsed_help p = false ->
  find_command (command_token argv (opt_index p)) = Some command ->
  notmuch_config_open w (parsed_config p) (create_config command) = Some c ->
  call w (function command) c (argc - opt_index p)
       (skipn (Z.to_nat (opt_index p)) argv) g1 = (t, g2, Done r) ->
  dispatch w argv (startup w g)
  = (ParseArguments argv
       :: ConfigOpen (parsed_config p) (create_config command) (Some c) :: t,
     g2, Done (Some c, r)).
Proof.
  intros H Hv Hh Hf Ho Hc. unfold dispatch.
  rewrite (bind_done _ _ _ _ _ _ parse_step).
  cbn [fst snd].
  replace (opt_index p <? 0) with false by (symmetry; apply Z.ltb_ge; lia).
  rewrite (bind_done _ _ _ _ _ _ (command_name_run argv _ g1 H)).
  rewrite (bind_done _ _ _ _ _ _ (shared_options_pass _ Hv Hh)).
  rewrite Hf, Ho. unfold bind, emit, ret, trace, final, result.
  rewrite Hc. cbn [fst snd app]. now rewrite app_nil_r.
Qed.

Lemma pending_quiet_then {A} (m : M A)
      (k : A -> M (option notmuch_config_t * Z)) (h : globals) :
  Quiet m -> (forall a h', pending (k a h')) -> pending (bind m k h).
Proof.
  intros Hm Hk. specialize (Hm h). unfold bind.
  destruct (m h) as [[t1 h1] [a|s]].
  - specialize (Hk a h1). destruct (k a h1) as [[t2 h2] r].
    unfold pending, trace, result, acquired, released in *. simpl in *.
    destruct (count_config_zero t1 Hm) as (Ha & Hr & _).
    unfold acquired, released in Ha, Hr.
    rewrite !count_app, Ha, Hr. exact Hk.
  - unfold pending, trace, result in *. simpl in *.
    split; [|exact I]. now apply count_config_zero.
Qed.

Lemma pending_ret_none (r : Z) (h : globals) :
  pending (ret (None, r) h).
Proof. split; reflexivity. Qed.

(** At [DONE] a handle is held exactly when [config] is set, and none
    was released. *)
Lemma dispatch_pending (h : globals) : pending (dispatch w argv h).
Proof.
  unfold dispatch.
  apply pending_quiet_then; [apply quiet_run_parse_arguments|].
  intros [i cfg] h1. cbn [fst snd].
  destruct (i <? 0); [apply pending_ret_none|].
  apply pending_quiet_then.
  { destruct (i <? Z.of_nat (List.length argv));
      [apply quiet_arg_at | apply quiet_ret]. }
  intros name0 h2.
  apply pending_quiet_then; [apply quiet_process_shared_options|].
  intros _ h3.
  destruct (find_command name0) as [command|].
  - destruct (notmuch_config_open w cfg (create_config command))
      as [c|] eqn:Ho.
    + pose proof (quiet_call w (function command) c
                    (Z.of_nat (List.length argv) - i)
                    (skipn (Z.to_nat i) argv) h3) as Hq.
      unfold bind, emit, ret.
      destruct (call w (function command) c _ _ h3) as [[t h4] [r|s]];
        unfold pending, trace, result, acquired, released in *;
        simpl in *;
        destruct (count_config_zero t Hq) as (Ha & Hr & _);
        unfold acquired, released, count in Ha, Hr;
        unfold count; simpl;
        rewrite ?app_nil_r, ?Ha, ?Hr; auto.
    + split; reflexivity.
  - apply pending_quiet_then; [apply quiet_deref|]. intros n h4.
    apply pending_quiet_then; [apply quiet_emit; reflexivity|].
    intros _ h5. apply pending_ret_none.
Qed.

End Main.

(** ** The version option *)

(** C3, as amended.  With the version flag set,
    [notmuch_process_shared_options] prints the version line and exits
    with EXIT_SUCCESS, whatever the help flag and the sub-command name
    are, and it prints nothing else.  In [main], when the parser has
    returned an index that is not negative and has left the version flag
    set, this is all that happens after the parse: no help, no command
    resolution, no configuration, whatever the command line names as
    command. *)
Theorem version_first (w : world) (name0 : option string) (h : globals)
        (argv : list string) (g : globals)
        (Hflag : print_version h = true)
        (Hindex : 0 <= opt_index (main_parse w argv g))
        (Hparsed : parsed_version (main_parse w argv g) = true) :
  notmuch_process_shared_options w name0 h
  = ([Out stdout ("notmuch " ++ NOTMUCH_VERSION w ++ nl)], h,
     Stop (Exited EXIT_SUCCESS))
  /\ main w argv g
     = ((prologue w
           ++ [ParseArguments argv;
               Out stdout ("notmuch " ++ NOTMUCH_VERSION w ++ nl)])%list,
        parsed_globals w argv g, Stop (Exited EXIT_SUCCESS)).
Proof.
  split.
  - rewrite shared_options_run. now rewrite Hflag.
  - rewrite main_run.
    assert (Hs : notmuch_process_shared_options w
                   (command_token argv (opt_index (main_parse w argv g)))
                   (parsed_globals w argv g)
                 = ([Out stdout ("notmuch " ++ NOTMUCH_VERSION w ++ nl)],
                    parsed_globals w argv g, Stop (Exited EXIT_SUCCESS))).
    { rewrite shared_options_run. unfold parsed_globals.
      cbn [print_version]. now rewrite Hparsed. }
    rewrite (dispatch_shared_stop w argv g _ _ _ Hindex Hs).
    reflexivity.
Qed.

(** Version and help together in front of a name that is no command. *)
Lemma version_first_witness :
  let argv := ["notmuch"; "--help"; "--version"; "bogus"] in
  let h := mk_globals true true None 2 in
  print_version h = true
  /\ 0 <= opt_index (main_parse Demo.plain argv globals_init)
  /\ parsed_version (main_parse Demo.plain argv globals_init) = true
  /\ parsed_help (main_parse Demo.plain argv globals_init) = true
  /\ result (notmuch_process_shared_options Demo.plain (Some "bogus") h)
     = Stop (Exited 0)
  /\ main Demo.plain argv globals_init
     = ([Lib "talloc_enable_null_tracking"; Lib "talloc_new";
         Lib "g_mime_init"; ParseArguments argv;
         Out stdout ("notmuch 0.21" ++ nl)],
        mk_globals true true None 2, Stop (Exited 0)).
Proof.
  intros argv h.
  assert (H0 : 0 <= opt_index (main_parse Demo.plain argv globals_init))
    by (simpl; lia).
  split; [reflexivity|]. split; [exact H0|]. split; [reflexivity|].
  split; [reflexivity|].
  destruct (version_first Demo.plain (Some "bogus") h argv globals_init
              eq_refl H0 eq_refl) as [Hs Hm].
  split; [now rewrite Hs | exact Hm].
Defined.

(** C3 as stated fails when the parser reports an error: on
    "notmuch --version --frobnicate" the parser has set the version flag
    and returns a negative index; [main] goes to DONE, the version is not
    printed and [main] returns EXIT_FAILURE. *)
Lemma version_not_printed_after_parse_error :
  let argv := ["notmuch"; "--version"; "--frobnicate"] in
  let run := main Demo.plain argv globals_init in
  parsed_version (main_parse Demo.plain argv globals_init) = true
  /\ print_version (final run) = true
  /\ opt_index (main_parse Demo.plain argv globals_init) < 0
  /\ result run = Done EXIT_FAILURE
  /\ result run <> Stop (Exited EXIT_SUCCESS)
  /\ ~ (exists text, In (Out stdout text) (trace run)).
Proof.
  intros argv run. split; [reflexivity|]. split; [reflexivity|].
  split; [simpl; lia|]. split; [reflexivity|]. split; [discriminate|].
  intros (text & H). simpl in H.
  repeat (destruct H as [H|H]; [discriminate|]). exact H.
Qed.

(** ** The configuration is released as often as it is acquired *)

(** C5. Whenever [main] returns, the trace has as many
    [notmuch_config_close] as successful [notmuch_config_open], and at
    most one: none on the paths that reach DONE before the open (parse
    failure, unknown command) or with a failed open, one after a handler
    has returned. *)
Theorem config_released_as_acquired (w : world) (argv : list string)
        (g : globals) (r : Z)
        (Hret : result (main w argv g) = Done r) :
  released (trace (main w argv g)) = acquired (trace (main w argv g))
  /\ (acquired (trace (main w argv g)) <= 1)%nat.
Proof.
  rewrite main_run in *. cbv zeta in *.
  pose proof (dispatch_pending w argv (startup w g)) as [Hrel Hacq].
  destruct (dispatch w argv (startup w g)) as [[t g'] [[config r0]|s]];
    unfold trace, final, result in *; cbn [fst snd] in *; [|discriminate].
  destruct (prologue_counts w) as (Pa & Pr & _).
  destruct (teardown_counts w config) as (Ta & Tr & _).
  unfold acquired, released in *.
  rewrite !count_app, Pa, Pr, Ta, Tr, Hrel.
  destruct config; rewrite Hacq; simpl; lia.
Qed.

(** A handler that returns, an unknown command and a parse failure. *)
Lemma config_released_as_acquired_witness :
  let handled := main Demo.plain ["notmuch"; "search"; "x"] globals_init in
  let unknown := main Demo.plain ["notmuch"; "bogus"] globals_init in
  let failed := main Demo.plain ["notmuch"; "--bogus"] globals_init in
  (result handled = Done 0
   /\ released (trace handled) = acquired (trace handled)
   /\ acquired (trace handled) = 1%nat)
  /\ (result unknown = Done 1
      /\ released (trace unknown) = acquired (trace unknown)
      /\ acquired (trace unknown) = 0%nat)
  /\ (result failed = Done 1
      /\ released (trace failed) = acquired (trace failed)
      /\ acquired (trace failed) = 0%nat).
Proof.
  intros handled unknown failed.
  destruct (config_released_as_acquired Demo.plain
              ["notmuch"; "search"; "x"] globals_init 0 eq_refl) as [H1 _].
  destruct (config_released_as_acquired Demo.plain
              ["notmuch"; "bogus"] globals_init 1 eq_refl) as [H2 _].
  destruct (config_released_as_acquired Demo.plain
              ["notmuch"; "--bogus"] globals_init 1 eq_refl) as [H3 _].
  split; [|split]; (split; [reflexivity|]; split; [assumption | reflexivity]).
Defined.

(** ** Unknown commands *)

Lemma final_status_failure (w : world) : final_status w EXIT_FAILURE = EXIT_FAILURE.
Proof.
  unfold final_status. destruct (report_path w) as [path|]; [|reflexivity].
  now destruct (fopen w path "w").
Qed.

Lemma unknown_command_names (n : string) : contains (unknown_command n) n.
Proof. unfold unknown_command. auto with contains. Qed.

Lemma not_known_names (n : string) : contains (not_known n) n.
Proof. unfold not_known. auto with contains. Qed.

Lemma teardown_no_run (w : world) (config : option notmuch_config_t) :
  count is_run (teardown_events w config) = 0%nat.
Proof.
  unfold teardown_events.
  destruct config; destruct (report_path w) as [path|];
    try destruct (fopen w path "w"); reflexivity.
Qed.

Lemma prologue_no_run (w : world) : count is_run (prologue w) = 0%nat.
Proof. unfold prologue. now destruct (glib_before_2_35_1 w). Qed.

(** The run of [main] on an unknown command name when neither the version
    nor the help flag is set. *)
Lemma main_unknown (w : world) (argv : list string) (g : globals) (n : string) :
  0 <= opt_index (main_parse w argv g) ->
  parsed_version (main_parse w argv g) = false ->
  parsed_help (main_parse w argv g) = false ->
  command_token argv (opt_index (main_parse w argv g)) = Some n ->
  find_command (Some n) = None ->
  main w argv g
  = ((prologue w
        ++ [ParseArguments argv; Out stderr (unknown_command n)]
        ++ teardown_events w None)%list,
     parsed_globals w argv g, Done EXIT_FAILURE).
Proof.
  intros H0 Hv Hh Htok Hf. rewrite main_run.
  rewrite (dispatch_unknown w argv g n H0 Hv Hh Htok Hf).
  cbv zeta. unfold trace, final, result. cbn [fst snd].
  now rewrite final_status_failure.
Qed.

(** C6, as amended.  The parser has returned an index that is not
    negative, the argument at that index is a C string [n] that is no
    registered command name, the version flag is not set, and [n] is no
    help topic in case the help flag is set.  Then [main] prints on the
    error stream a message in which [n] occurs, the process ends with the
    failure status, and [notmuch_config_open] is not called. *)
Theorem unknown_command_reported (w : world) (argv : list string)
        (g : globals) (n : string)
        (Hindex : 0 <= opt_index (main_parse w argv g))
        (Htoken : command_token argv (opt_index (main_parse w argv g)) = Some n)
        (Hc : cstring n = true)
        (Hunreg : ~ In (Some n) command_names)
        (Hversion : parsed_version (main_parse w argv g) = false)
        (Htopic : parsed_help (main_parse w argv g) = true ->
                  ~ In n topic_names) :
  (exists text, In (Out stderr text) (trace (main w argv g))
                /\ contains text n)
  /\ fails (main w argv g)
  /\ count is_open_call (trace (main w argv g)) = 0%nat.
Proof.
  assert (Hf : find_command (Some n) = None)
    by exact (find_command_in_absent commands n Hc commands_names_ok Hunreg).
  destruct (prologue_counts w) as (_ & _ & Po).
  destruct (parsed_help (main_parse w argv g)) eqn:Hh.
  - assert (Hs : notmuch_process_shared_options w
                   (command_token argv (opt_index (main_parse w argv g)))
                   (parsed_globals w argv g)
                 = ([Out stderr (not_known n)], parsed_globals w argv g,
                    Stop (Exited EXIT_FAILURE))).
    { rewrite shared_options_run, Htoken. unfold parsed_globals.
      cbn [print_version print_help]. rewrite Hversion, Hh.
      now rewrite (help_for_unknown w n _ Hc Hf (Htopic eq_refl)). }
    rewrite main_run, (dispatch_shared_stop w argv g _ _ _ Hindex Hs).
    cbv zeta. unfold trace, result, fails. cbn [fst snd].
    split; [|split].
    + exists (not_known n). split; [|apply not_known_names].
      apply in_or_app. right. simpl. auto.
    + now right.
    + rewrite count_app, Po. reflexivity.
  - rewrite (main_unknown w argv g n Hindex Hversion Hh Htoken Hf).
    unfold trace, result, fails. cbn [fst snd].
    destruct (teardown_counts w None) as (_ & _ & To).
    split; [|split].
    + exists (unknown_command n). split; [|apply unknown_command_names].
      apply in_or_app. right. simpl. auto.
    + now left.
    + rewrite !count_app, Po, To. reflexivity.
Qed.

Lemma unknown_command_reported_witness :
  let argv := ["notmuch"; "--config=/tmp/c"; "bogus"; "--version"] in
  let run := main Demo.plain argv globals_init in
  command_token argv (opt_index (main_parse Demo.plain argv globals_init))
  = Some "bogus"
  /\ In (Out stderr (unknown_command "bogus")) (trace run)
  /\ fails run
  /\ count is_open_call (trace run) = 0%nat.
Proof.
  intros argv run.
  assert (H0 : 0 <= opt_index (main_parse Demo.plain argv globals_init))
    by (simpl; lia).
  assert (Hun : ~ In (Some "bogus") command_names).
  { intros H. simpl in H.
    repeat (destruct H as [H|H]; [discriminate|]). exact H. }
  destruct (unknown_command_reported Demo.plain argv globals_init "bogus"
              H0 eq_refl eq_refl Hun eq_refl)
    as (_ & Hfail & Hopen).
  - intros H. discriminate H.
  - split; [reflexivity|]. split; [|split; assumption].
    simpl. auto 10.
Defined.

(** C6 as stated fails when the version flag is set: the command line
    "notmuch --version bogus" has "bogus", no registered name, as its
    first argument that is no option, and the process prints the version
    and ends with EXIT_SUCCESS; nothing is written to the error stream. *)
Lemma unknown_command_after_version :
  let argv := ["notmuch"; "--version"; "bogus"] in
  let run := main Demo.plain argv globals_init in
  command_token argv (opt_index (main_parse Demo.plain argv globals_init))
  = Some "bogus"
  /\ ~ In (Some "bogus") command_names
  /\ result run = Stop (Exited EXIT_SUCCESS)
  /\ ~ fails run
  /\ ~ (exists text, In (Out stderr text) (trace run)
                     /\ contains text "bogus").
Proof.
  intros argv run. split; [reflexivity|]. split; [|split; [reflexivity|split]].
  - intros H. simpl in H.
    repeat (destruct H as [H|H]; [discriminate|]). exact H.
  - intros [H|H]; discriminate H.
  - intros (text & H & _). simpl in H.
    repeat (destruct H as [H|H]; [discriminate|]). exact H.
Qed.

(** C10. The empty string is no command name: [find_command] gives NULL
    for it, while NULL gives the entry without a name.  When the parser
    leaves the empty string as command name and neither the version nor
    the help flag is set, [main] reports an unknown command and returns
    EXIT_FAILURE; no configuration is opened and no command is run. *)
Theorem empty_name_is_unknown (w : world) (argv : list string) (g : globals)
        (Hindex : 0 <= opt_index (main_parse w argv g))
        (Htoken : command_token argv (opt_index (main_parse w argv g)) = Some "")
        (Hversion : parsed_version (main_parse w argv g) = false)
        (Hhelp : parsed_help (main_parse w argv g) = false) :
  find_command (Some "") = None
  /\ (exists d, find_command None = Some d /\ name d = None
                /\ function d = Fn.notmuch_command)
  /\ (forall c, In c commands -> name c <> Some "")
  /\ main w argv g
     = ((prologue w
           ++ [ParseArguments argv; Out stderr (unknown_command "")]
           ++ teardown_events w None)%list,
        parsed_globals w argv g, Done EXIT_FAILURE)
  /\ count is_open_call (trace (main w argv g)) = 0%nat
  /\ count is_run (trace (main w argv g)) = 0%nat.
Proof.
  split; [reflexivity|]. split; [eexists; repeat split|].
  split.
  { intros c Hc. simpl in Hc.
    repeat (destruct Hc as [Hc|Hc]; [subst c; discriminate|]).
    contradiction. }
  rewrite (main_unknown w argv g "" Hindex Hversion Hhelp Htoken eq_refl).
  split; [reflexivity|].
  unfold trace. cbn [fst snd].
  destruct (prologue_counts w) as (_ & _ & Po).
  destruct (teardown_counts w None) as (_ & _ & To).
  rewrite !count_app, Po, To, prologue_no_run, teardown_no_run.
  split; reflexivity.
Qed.

Lemma empty_name_is_unknown_witness :
  let argv := ["notmuch"; ""] in
  0 <= opt_index (main_parse Demo.plain argv globals_init)
  /\ command_token argv (opt_index (main_parse Demo.plain argv globals_init))
     = Some ""
  /\ main Demo.plain argv globals_init
     = ([Lib "talloc_enable_null_tracking"; Lib "talloc_new";
         Lib "g_mime_init"; ParseArguments argv;
         Out stderr (unknown_command "");
         Getenv "NOTMUCH_TALLOC_REPORT"; Lib "talloc_free"],
        mk_globals false false None 2, Done 1).
Proof.
  intros argv.
  assert (H0 : 0 <= opt_index (main_parse Demo.plain argv globals_init))
    by (simpl; lia).
  split; [exact H0|]. split; [reflexivity|].
  destruct (empty_name_is_unknown Demo.plain argv globals_init
              H0 eq_refl eq_refl eq_refl) as (_ & _ & _ & Hm & _).
  exact Hm.
Defined.

(** ** Help for a name of neither table *)

Lemma delegated_trace (w : world) (page : string) (g : globals) :
  count is_delegation (trace (delegated w page g)) = 1%nat
  /\ (forall text, ~ In (Out stderr text) (trace (delegated w page g)))
  /\ (exists s, result (delegated w page g) = Stop s)
  /\ (execlp w "man" ["man"; page] = false ->
      delegated w page g
      = ([Execlp "man" ["man"; page]; Perror "exec man"], g, Stop (Exited 1))).
Proof.
  unfold delegated. destruct (execlp w "man" ["man"; page]);
    (split; [reflexivity|]; split;
     [intros text H; simpl in H;
      repeat (destruct H as [H|H]; [discriminate|]); exact H|];
     split; [eexists; reflexivity|]; intros H;
     first [reflexivity | discriminate]).
Qed.

(** The outcomes of [_help_for] on a name. *)
Lemma help_for_cases (w : world) (t : string) (g : globals) :
  cstring t = true ->
  (t = "help"
   /\ exists text, _help_for w (Some t) g
                   = ([Out stdout text], g, Done EXIT_SUCCESS))
  \/ ((find_command (Some t) <> None \/ In t topic_names)
      /\ _help_for w (Some t) g = delegated w ("notmuch-" ++ t) g)
  \/ (find_command (Some t) = None /\ ~ In t topic_names
      /\ _help_for w (Some t) g
         = ([Out stderr (not_known t)], g, Done EXIT_FAILURE)).
Proof.
  intros Ht. destruct (strcmp t "help" =? 0) eqn:Hh.
  - left. apply Z.eqb_eq in Hh.
    apply (strcmp_zero_eq t "help" Ht eq_refl) in Hh. subst t.
    split; [reflexivity|]. eexists. reflexivity.
  - right. destruct (find_command (Some t)) as [c|] eqn:Hf.
    + left. split; [left; discriminate|].
      exact (help_for_command w t c g Ht Hh Hf).
    + destruct (in_dec string_dec t topic_names) as [Hin|Hno].
      * left. split; [now right|]. exact (help_for_topic w t g Ht Hf Hin).
      * right. split; [reflexivity|]. split; [assumption|].
        exact (help_for_unknown w t g Ht Hf Hno).
Qed.




(** ** The allocation report *)

Lemma report_path_set (w : world) (path : string) :
  getenv w "NOTMUCH_TALLOC_REPORT" = Some path ->
  cstring path = true -> path <> "" ->
  report_path w = Some path.
Proof.
  intros Hp Hc Hne. unfold report_path. rewrite Hp.
  now rewrite (strcmp_neq path "" Hc eq_refl Hne).
Qed.

(** C9. NOTMUCH_TALLOC_REPORT holds a non-empty path.  From DONE on,
    [main] opens that path for writing; when that fails it returns 1,
    whatever status it reached DONE with, and when that succeeds it
    writes the report and returns the status it reached DONE with, which
    is the status of the handler when the handler ran. *)
Theorem report_failure_forces_status (w : world) (path : string)
        (config : option notmuch_config_t) (r : Z) (g : globals)
        (Hset : getenv w "NOTMUCH_TALLOC_REPORT" = Some path)
        (Hc : cstring path = true)
        (Hne : path <> "") :
  In (Fopen path "w" (fopen w path "w")) (trace (teardown w config r g))
  /\ (fopen w path "w" = false ->
      result (teardown w config r g) = Done 1
      /\ ~ In TallocReportFull (trace (teardown w config r g)))
  /\ (fopen w path "w" = true ->
      result (teardown w config r g) = Done r
      /\ In TallocReportFull (trace (teardown w config r g)))
  /\ (forall argv g0 t g',
        dispatch w argv (startup w g0) = (t, g', Done (config, r)) ->
        result (main w argv g0) = Done (if fopen w path "w" then r else 1))
  /\ (forall argv g0 command c t g',
        0 <= opt_index (main_parse w argv g0) ->
        parsed_version (main_parse w argv g0) = false ->
        parsed_help (main_parse w argv g0) = false ->
        find_command (command_token argv (opt_index (main_parse w argv g0)))
        = Some command ->
        notmuch_config_open w (parsed_config (main_parse w argv g0))
                            (create_config command) = Some c ->
        call w (function command) c
             (Z.of_nat (List.length argv) - opt_index (main_parse w argv g0))
             (skipn (Z.to_nat (opt_index (main_parse w argv g0))) argv)
             (parsed_globals w argv g0) = (t, g', Done r) ->
        result (main w argv g0) = Done (if fopen w path "w" then r else 1)).
Proof.
  pose proof (report_path_set w path Hset Hc Hne) as Hrp.
  rewrite teardown_run. unfold trace, result. cbn [fst snd].
  unfold teardown_events, final_status. rewrite Hrp.
  split; [|split; [|split; [|split]]].
  - destruct config; destruct (fopen w path "w"); simpl; auto.
  - intros ->. split; [reflexivity|].
    intros H. destruct config; simpl in H;
      repeat (destruct H as [H|H]; [discriminate|]); exact H.
  - intros ->. split; [reflexivity|].
    destruct config; simpl; auto 6.
  - intros argv g0 t g' Hd. rewrite main_run, Hd. cbv zeta.
    unfold result, final_status. cbn [fst snd]. now rewrite Hrp.
  - intros argv g0 command c t g' H0 Hv Hh Hf Ho Hcall.
    rewrite main_run.
    rewrite (dispatch_handler w argv g0 command c t g' r H0 Hv Hh Hf Ho Hcall).
    cbv zeta. unfold result, final_status. cbn [fst snd]. now rewrite Hrp.
Qed.

(** A handler that succeeds while the report cannot be written, and a
    handler that returns 7 while it can. *)
Lemma report_failure_forces_status_witness :
  let unwritable := Demo.demo_world (Some "/tmp/report") false true 0 in
  let writable := Demo.demo_world (Some "/tmp/report") true true 7 in
  let argv := ["notmuch"; "search"; "tag:inbox"] in
  getenv unwritable "NOTMUCH_TALLOC_REPORT" = Some "/tmp/report"
  /\ cstring "/tmp/report" = true
  /\ "/tmp/report" <> ""
  /\ result (main unwritable argv globals_init) = Done 1
  /\ result (main writable argv globals_init) = Done 7.
Proof.
  intros unwritable writable argv.
  assert (Hne : "/tmp/report" <> "") by discriminate.
  split; [reflexivity|]. split; [reflexivity|]. split; [exact Hne|].
  split.
  - destruct (report_failure_forces_status unwritable "/tmp/report"
                (Some (Config 1)) 0 globals_init eq_refl eq_refl Hne)
      as (_ & _ & _ & _ & H).
    apply (H argv globals_init
             (mk_command (Some "search") Fn.notmuch_search_command false
                "Search for messages matching the given search terms.")
             (Config 1)
             [Run Fn.notmuch_search_command (Config 1) 2
                  ["search"; "tag:inbox"]]
             (mk_globals false false None 2));
      first [reflexivity | simpl; lia].
  - destruct (report_failure_forces_status writable "/tmp/report"
                (Some (Config 1)) 7 globals_init eq_refl eq_refl Hne)
      as (_ & _ & _ & _ & H).
    apply (H argv globals_init
             (mk_command (Some "search") Fn.notmuch_search_command false
                "Search for messages matching the given search terms.")
             (Config 1)
             [Run Fn.notmuch_search_command (Config 1) 2
                  ["search"; "tag:inbox"]]
             (mk_globals false false None 2));
      first [reflexivity | simpl; lia].
Defined.

(** * Further facts *)

(** ** Computations that keep the globals *)

Lemma keeps_ret {A} (a : A) : Keeps (ret a).
Proof. intros g. reflexivity. Qed.

Lemma keeps_halt {A} (s : stop) : Keeps (@halt A s).
Proof. intros g. reflexivity. Qed.

Lemma keeps_get : Keeps get.
Proof. intros g. reflexivity. Qed.

Lemma keeps_emit (e : event) : Keeps (emit e).
Proof. intros g. reflexivity. Qed.

Lemma keeps_bind {A B} (m : M A) (k : A -> M B) :
  Keeps m -> (forall a, Keeps (k a)) -> Keeps (bind m k).
Proof.
  intros Hm Hk g. specialize (Hm g). unfold bind.
  destruct (m g) as [[t1 g1] [a|s]]; unfold final in *; simpl in *;
    [|exact Hm].
  subst g1. specialize (Hk a g). destruct (k a g) as [[t2 g2] r].
  exact Hk.
Qed.

Lemma keeps_for_each {A} (l : list A) (body : A -> M unit) :
  (forall a, Keeps (body a)) -> Keeps (for_each l body).
Proof.
  intros H. induction l as [|a l IH]; simpl.
  - apply keeps_ret.
  - apply keeps_bind; auto.
Qed.

Create HintDb keeps.
#[local] Hint Resolve keeps_ret keeps_halt keeps_get keeps_emit keeps_bind
  keeps_for_each : keeps.
#[local] Hint Extern 1 (Keeps (fprintf _ _)) => apply keeps_emit : keeps.
#[local] Hint Extern 1 (Keeps (printf _)) => apply keeps_emit : keeps.
#[local] Hint Extern 1 (Keeps (exit _)) => apply keeps_halt : keeps.
#[local] Hint Extern 1 (Keeps (deref _)) => unfold deref : keeps.
#[local] Hint Extern 2 (Keeps (if ?b then _ else _)) => destruct b : keeps.
#[local] Hint Extern 2 (Keeps (match ?o with Some _ => _ | None => _ end)) =>
  destruct o : keeps.
#[local] Hint Extern 3 (forall _, Keeps _) => intro : keeps.

Lemma keeps_usage (out : stream) : Keeps (usage out).
Proof. unfold usage. auto 30 with keeps. Qed.

Lemma keeps_exec_man (w : world) (page : string) : Keeps (exec_man w page).
Proof. unfold exec_man. auto 10 with keeps. Qed.

Lemma keeps_help_for (w : world) (topic : option string) :
  Keeps (_help_for w topic).
Proof.
  pose proof keeps_usage. pose proof (keeps_exec_man w).
  unfold _help_for. auto 30 with keeps.
Qed.

Lemma keeps_process_shared_options (w : world) (name0 : option string) :
  Keeps (notmuch_process_shared_options w name0).
Proof.
  pose proof (keeps_help_for w).
  unfold notmuch_process_shared_options. auto 20 with keeps.
Qed.

(** X15. The shared option state is read-only outside the parser: the
    help resolver, the shared-option handler, both gates, [usage] and the
    end of [main] from DONE on leave the four globals as they found
    them, on every path, also when they end the process. *)
Theorem option_state_read_only (w : world) (g : globals) :
  (forall topic, final (_help_for w topic g) = g)
  /\ (forall name0, final (notmuch_process_shared_options w name0 g) = g)
  /\ final (notmuch_exit_if_unsupported_format w g) = g
  /\ (forall db, final (notmuch_exit_if_unmatched_db_uuid w db g) = g)
  /\ (forall out, final (usage out g) = g)
  /\ (forall config r, final (teardown w config r g) = g).
Proof.
  split; [intros; apply keeps_help_for|].
  split; [intros; apply keeps_process_shared_options|].
  split.
  { revert g. change (Keeps (notmuch_exit_if_unsupported_format w)).
    unfold notmuch_exit_if_unsupported_format. auto 20 with keeps. }
  split.
  { intros db. revert g.
    change (Keeps (notmuch_exit_if_unmatched_db_uuid w db)).
    unfold notmuch_exit_if_unmatched_db_uuid, strcmp_ptr.
    auto 30 with keeps. }
  split; [intros; apply keeps_usage|].
  intros config r. now rewrite teardown_run.
Qed.

(** ** The usage text *)

Lemma usage_run (out : stream) (g : globals) :
  usage out g = (map (Out out) usage_texts, g, Done tt).
Proof. reflexivity. Qed.

(** X1. [usage] writes to the stream it is given and to no other.  It
    prints one line for each entry of the command table that has a name,
    in table order, with the name padded to twelve columns and the
    summary; the entry without a name has no line.  The help topics follow
    in the same form, and the function always returns. *)
Theorem usage_lists_every_name (out : stream) (g : globals) :
  usage out g = (map (Out out) usage_texts, g, Done tt)
  /\ (forall c n, In c commands -> name c = Some n ->
                  In (Out out (listing n (summary c))) (trace (usage out g)))
  /\ (forall t, In t help_topics ->
                In (Out out (listing (topic_name t) (topic_summary t)))
                   (trace (usage out g)))
  /\ S (List.length command_listing) = List.length commands
  /\ (forall f text, In (Out f text) (trace (usage out g)) -> f = out).
Proof.
  rewrite usage_run. unfold trace. cbn [fst snd].
  split; [reflexivity|]. split; [|split; [|split]].
  - intros c n Hc Hn. apply in_map. unfold usage_texts.
    apply in_or_app. right. apply in_or_app. left.
    unfold command_listing. apply in_flat_map. exists c.
    split; [exact Hc|]. rewrite Hn. now left.
  - intros t Ht. apply in_map. unfold usage_texts.
    apply in_or_app. right. apply in_or_app. right.
    apply in_or_app. right. apply in_or_app. left.
    unfold topic_listing.
    exact (in_map (fun t => listing (topic_name t) (topic_summary t))
                  help_topics t Ht).
  - reflexivity.
  - intros f text H. apply in_map_iff in H. destruct H as (x & E & _).
    now inversion E.
Qed.

(** ** The loop of [find_command] *)

(** X14. The loop of [find_command] returns the first entry that passes
    its test: when it returns an entry, the table splits into entries
    that fail the test, that entry, and a rest that was not looked at; when
    it returns NULL, every entry fails the test.  The test pairs NULL with
    NULL only, and a string with an equal string only. *)
Theorem find_command_first_match (table : list command_t)
        (name0 : option string) :
  match find_command_in table name0 with
  | Some c =>
      exists before rest,
        table = (before ++ c :: rest)%list
        /\ Forall (fun d => command_matches name0 d = false) before
        /\ command_matches name0 c = true
        /\ match name0, name c with
           | None, None => True
           | Some n, Some cn => strcmp n cn = 0
           | _, _ => False
           end
  | None => Forall (fun d => command_matches name0 d = false) table
  end.
Proof.
  induction table as [|d table IH]; cbn [find_command_in]; [constructor|].
  destruct (command_matches name0 d) eqn:E.
  - exists [], table. split; [reflexivity|]. split; [constructor|].
    split; [exact E|]. unfold command_matches in E.
    destruct name0 as [n|], (name d) as [cn|]; try discriminate; [|exact I].
    now apply Z.eqb_eq.
  - destruct (find_command_in table name0) as [c|].
    + destruct IH as (before & rest & -> & Hb & Hc).
      exists (d :: before), rest. split; [reflexivity|].
      split; [now constructor | exact Hc].
    + now constructor.
Qed.

(** ** Computations without events of some kind *)

Lemma free_ret (p : event -> bool) {A} (a : A) : Free p (ret a).
Proof. intros g. reflexivity. Qed.

Lemma free_halt (p : event -> bool) {A} (s : stop) : Free p (@halt A s).
Proof. intros g. reflexivity. Qed.

Lemma free_get (p : event -> bool) : Free p get.
Proof. intros g. reflexivity. Qed.

Lemma free_emit (p : event -> bool) (e : event) :
  p e = false -> Free p (emit e).
Proof. intros H g. unfold emit, trace, count. simpl. now rewrite H. Qed.

Lemma free_bind (p : event -> bool) {A B} (m : M A) (k : A -> M B) :
  Free p m -> (forall a, Free p (k a)) -> Free p (bind m k).
Proof.
  intros Hm Hk g. specialize (Hm g). unfold bind.
  destruct (m g) as [[t1 g1] [a|s]]; [|exact Hm].
  specialize (Hk a g1). destruct (k a g1) as [[t2 g2] r].
  unfold trace in *. simpl in *. rewrite count_app. lia.
Qed.

Lemma free_for_each (p : event -> bool) {A} (l : list A) (body : A -> M unit) :
  (forall a, Free p (body a)) -> Free p (for_each l body).
Proof.
  intros H. induction l as [|a l IH]; simpl.
  - apply free_ret.
  - apply free_bind; auto.
Qed.

Create HintDb free.
#[local] Hint Resolve free_ret free_halt free_get free_bind
  free_for_each : free.
#[local] Hint Extern 1 (Free _ (emit _)) =>
  apply free_emit; reflexivity : free.
#[local] Hint Extern 1 (Free _ (fprintf _ _)) =>
  apply free_emit; reflexivity : free.
#[local] Hint Extern 1 (Free _ (printf _)) =>
  apply free_emit; reflexivity : free.
#[local] Hint Extern 1 (Free _ (exit _)) => apply free_halt : free.
#[local] Hint Extern 1 (Free _ (deref _)) => unfold deref : free.
#[local] Hint Extern 2 (Free _ (if ?b then _ else _)) => destruct b : free.
#[local] Hint Extern 2 (Free _ (match ?o with Some _ => _ | None => _ end)) =>
  destruct o : free.
#[local] Hint Extern 3 (forall _, Free _ _) => intro : free.

Lemma help_for_runs_nothing (w : world) (topic : option string) :
  Free is_run (_help_for w topic).
Proof. unfold _help_for, usage, exec_man. auto 40 with free. Qed.

Lemma help_for_one_delegation (w : world) (page : string) (g : globals) :
  count is_delegation (trace (delegated w page g)) = 1%nat.
Proof. unfold delegated. now destruct (execlp w "man" ["man"; page]). Qed.

(** ** What a sequence returns *)

Lemma bind_result {A B} (m : M A) (k : A -> M B) (g : globals) (b : B) :
  result (bind m k g) = Done b ->
  exists a g1, result (m g) = Done a /\ final (m g) = g1
               /\ result (k a g1) = Done b.
Proof.
  unfold bind, result, final.
  destruct (m g) as [[t1 g1] [a|s]]; simpl; [|discriminate].
  destruct (k a g1) as [[t2 g2] r] eqn:E. simpl. intros ->.
  exists a, g1. rewrite E. auto.
Qed.

Lemma help_for_none (w : world) (g : globals) :
  _help_for w None g
  = (Out stdout banner :: map (Out stdout) usage_texts, g, Done EXIT_SUCCESS).
Proof. reflexivity. Qed.

Lemma help_for_status (w : world) (topic : option string) (g : globals) (r : Z) :
  result (_help_for w topic g) = Done r ->
  r = EXIT_SUCCESS \/ r = EXIT_FAILURE.
Proof.
  destruct topic as [t|].
  - unfold _help_for. destruct (strcmp t "help" =? 0).
    + intros H. apply bind_result in H as (_ & g1 & _ & _ & H).
      inversion H. now left.
    + intros H.
      apply bind_result in H as (_ & g1 & _ & _ & H).
      apply bind_result in H as (_ & g2 & _ & _ & H).
      apply bind_result in H as (_ & g3 & _ & _ & H).
      inversion H. now right.
  - rewrite help_for_none. intros H. inversion H. now left.
Qed.

(** ** The shared options *)

(** X5. [notmuch_process_shared_options] comes back to its caller exactly
    when neither the version nor the help flag is set, and then it has
    printed nothing; with a flag set it ends the process, whatever the
    help resolver does. *)
Theorem shared_options_return_iff (w : world) (name0 : option string)
        (g : globals) :
  (result (notmuch_process_shared_options w name0 g) = Done tt
   <-> print_version g = false /\ print_help g = false)
  /\ (print_version g = false -> print_help g = false ->
      notmuch_process_shared_options w name0 g = ([], g, Done tt))
  /\ (print_version g = false -> print_help g = true ->
      notmuch_process_shared_options w name0 g
      = exit_with (_help_for w name0 g)).
Proof.
  rewrite shared_options_run.
  destruct (print_version g), (print_help g); unfold result, exit_with;
    cbn [fst snd]; (split; [split|split]); try discriminate; auto;
    try (intros [? ?]; discriminate).
  destruct (snd (_help_for w name0 g)); discriminate.
Qed.

Lemma minimal_options_run (w : world) (name0 : option string) (argc : Z)
      (argv : list string) (g : globals) :
  notmuch_minimal_options w name0 argc argv g =
    if opt_index (minimal_parse w argv g) <? 0
    then ([ParseArguments argv], minimal_globals w argv g, Done (-1))
    else
      let s := notmuch_process_shared_options w name0
                 (minimal_globals w argv g) in
      (ParseArguments argv :: trace s, final s,
       match result s with
       | Done _ => Done (opt_index (minimal_parse w argv g))
       | Stop st => Stop st
       end).
Proof.
  unfold notmuch_minimal_options.
  rewrite (bind_done _ _ g (minimal_globals w argv g) [ParseArguments argv]
             (opt_index (minimal_parse w argv g),
              parsed_config (minimal_parse w argv g))) by reflexivity.
  cbn [fst snd].
  destruct (opt_index (minimal_parse w argv g) <? 0); [reflexivity|].
  unfold bind, ret, trace, final, result. cbv zeta.
  destruct (notmuch_process_shared_options w name0 (minimal_globals w argv g))
    as [[t g'] [u|s]]; cbn [fst snd app]; now rewrite ?app_nil_r.
Qed.

(** X6. [notmuch_minimal_options] returns -1 as soon as the parser
    reports an error, before the shared options are looked at: nothing is
    printed then, also with the version or the help flag set.  When it
    returns another value, that value is the index the parser returned,
    it is not negative, and neither flag is set. *)
Theorem minimal_options_result (w : world) (name0 : option string) (argc : Z)
        (argv : list string) (g : globals) :
  (opt_index (minimal_parse w argv g) < 0 ->
   notmuch_minimal_options w name0 argc argv g
   = ([ParseArguments argv], minimal_globals w argv g, Done (-1)))
  /\ (forall i,
        result (notmuch_minimal_options w name0 argc argv g) = Done i ->
        (i = -1 /\ opt_index (minimal_parse w argv g) < 0)
        \/ (i = opt_index (minimal_parse w argv g) /\ 0 <= i
            /\ parsed_version (minimal_parse w argv g) = false
            /\ parsed_help (minimal_parse w argv g) = false
            /\ trace (notmuch_minimal_options w name0 argc argv g)
               = [ParseArguments argv])).
Proof.
  rewrite minimal_options_run.
  destruct (opt_index (minimal_parse w argv g) <? 0) eqn:E.
  - apply Z.ltb_lt in E. split; [reflexivity|].
    intros i H. inversion H. left. auto.
  - apply Z.ltb_ge in E. split; [lia|]. intros i. cbv zeta.
    assert (Ev : print_version (minimal_globals w argv g)
                 = parsed_version (minimal_parse w argv g)) by reflexivity.
    assert (Eh : print_help (minimal_globals w argv g)
                 = parsed_help (minimal_parse w argv g)) by reflexivity.
    rewrite shared_options_run, Ev, Eh.
    destruct (parsed_version (minimal_parse w argv g));
      [unfold result; cbn [fst snd]; discriminate|].
    destruct (parsed_help (minimal_parse w argv g)).
    + unfold result. cbn [fst snd].
      destruct (snd (_help_for w name0 (minimal_globals w argv g)));
        discriminate.
    + unfold result, trace. cbn [fst snd]. intros H. inversion H. right.
      repeat split; lia.
Qed.

(** ** Which names the help resolver hands to the viewer *)

Lemma registered_iff_found (t : string) :
  cstring t = true ->
  (find_command (Some t) <> None <-> In (Some t) command_names).
Proof.
  intros Ht. split.
  - destruct (find_command (Some t)) as [c|] eqn:E; [|congruence].
    intros _.
    destruct (find_command_in_sound commands t c Ht commands_names_ok E)
      as [Hin Hn].
    rewrite <- Hn. now apply in_map.
  - intros Hin.
    destruct (find_command_in_complete commands t Hin) as [c Hc].
    unfold find_command. rewrite Hc. discriminate.
Qed.

(** X3. For a name [t] the help resolver calls the viewer exactly when
    [t] is a registered command other than "help" or a help topic; the
    page is then "notmuch-" followed by [t], the viewer is called once
    and the resolver does not return.  "help" itself, although a
    registered command, is answered by a text of the resolver.  Whenever
    the resolver returns, it has not called the viewer. *)
Theorem help_delegates_exactly (w : world) (t : string) (g : globals)
        (Ht : cstring t = true) :
  (t <> "help" -> In (Some t) command_names \/ In t topic_names ->
   _help_for w (Some t) g = delegated w ("notmuch-" ++ t) g
   /\ count is_delegation (trace (_help_for w (Some t) g)) = 1%nat
   /\ forall r, result (_help_for w (Some t) g) <> Done r)
  /\ (t = "help" ->
      exists text,
        _help_for w (Some t) g = ([Out stdout text], g, Done EXIT_SUCCESS))
  /\ (forall r, result (_help_for w (Some t) g) = Done r ->
                count is_delegation (trace (_help_for w (Some t) g)) = 0%nat)
  /\ (count is_delegation (trace (_help_for w (Some t) g)) <> 0%nat ->
      t <> "help" /\ (In (Some t) command_names \/ In t topic_names)).
Proof.
  pose proof (registered_iff_found t Ht) as Hreg.
  destruct (help_for_cases w t g Ht)
    as [(-> & text & E) | [(Hk & E) | (Hf & Hno & E)]]; rewrite E.
  - split; [intros H; now contradiction H|].
    split; [intros _; now exists text|].
    split; [reflexivity|]. intros H. now contradiction H.
  - assert (Hne : t <> "help").
    { intros ->. apply (f_equal (fun x => result x)) in E.
      unfold delegated in E.
      destruct (execlp w "man" ["man"; "notmuch-" ++ "help"]);
        vm_compute in E; discriminate E. }
    assert (Hin : In (Some t) command_names \/ In t topic_names)
      by (destruct Hk as [Hk|Hk]; [left; now apply Hreg | now right]).
    destruct (delegated_trace w ("notmuch-" ++ t) g) as (Hd & _ & (s & Hs) & _).
    split; [intros _ _; split; [reflexivity|split; [exact Hd|]];
            intros r; rewrite Hs; discriminate|].
    split; [intros ->; now contradiction Hne|].
    split; [intros r; rewrite Hs; discriminate|].
    intros _. split; assumption.
  - split.
    + intros _ [Hin|Hin]; [apply Hreg in Hin; contradiction | contradiction].
    + split; [intros ->; discriminate Hf|].
      split; [reflexivity|]. intros H. now contradiction H.
Qed.

(** "hooks" is a help topic and no command; the viewer is found. *)
Lemma help_delegates_exactly_witness :
  cstring "hooks" = true
  /\ _help_for Demo.plain (Some "hooks") globals_init
     = ([Execlp "man" ["man"; "notmuch-hooks"]], globals_init,
        Stop (Replaced "man" ["man"; "notmuch-hooks"])).
Proof.
  split; [reflexivity|].
  destruct (help_delegates_exactly Demo.plain "hooks" globals_init eq_refl)
    as (H & _).
  destruct H as (E & _); [discriminate | right; simpl; auto |].
  exact E.
Defined.

(** ** The functions of the table defined in this file *)

Lemma nth_error_after_skip (argv : list string) (i : nat) :
  nth_error (skipn i argv) 0 = nth_error argv i.
Proof. rewrite nth_error_skipn. f_equal. lia. Qed.

(** X16. [notmuch_help_command], called with a consistent [argc]: when
    the parser fails it returns EXIT_FAILURE and prints nothing; when the
    parser returns an index within the arguments and no flag is set, the
    topic is the argument at that index, and no topic at all when the
    index is [argc]; the result is that of the help resolver. *)
Theorem help_command_topic (w : world) (argc : Z) (argv : list string)
        (g : globals)
        (Hargc : argc = Z.of_nat (List.length argv)) :
  (opt_index (minimal_parse w argv g) < 0 ->
   notmuch_help_command w argc argv g
   = ([ParseArguments argv], minimal_globals w argv g, Done EXIT_FAILURE))
  /\ (0 <= opt_index (minimal_parse w argv g) <= argc ->
      parsed_version (minimal_parse w argv g) = false ->
      parsed_help (minimal_parse w argv g) = false ->
      notmuch_help_command w argc argv g
      = (ParseArguments argv
           :: trace (_help_for w
                       (nth_error argv
                          (Z.to_nat (opt_index (minimal_parse w argv g))))
                       (minimal_globals w argv g)),
         final (_help_for w
                  (nth_error argv
                     (Z.to_nat (opt_index (minimal_parse w argv g))))
                  (minimal_globals w argv g)),
         result (_help_for w
                   (nth_error argv
                      (Z.to_nat (opt_index (minimal_parse w argv g))))
                   (minimal_globals w argv g)))).
Proof.
  unfold notmuch_help_command. split.
  - intros Hneg.
    pose proof (minimal_options_run w (Some "help") argc argv g) as E.
    replace (opt_index (minimal_parse w argv g) <? 0) with true in E
      by (symmetry; now apply Z.ltb_lt).
    now rewrite (bind_done _ _ _ _ _ _ E).
  - intros [H0 Hle] Hv Hh.
    pose proof (minimal_options_run w (Some "help") argc argv g) as E.
    replace (opt_index (minimal_parse w argv g) <? 0) with false in E
      by (symmetry; now apply Z.ltb_ge).
    assert (Ev : print_version (minimal_globals w argv g) = false)
      by exact Hv.
    assert (Eh : print_help (minimal_globals w argv g) = false)
      by exact Hh.
    rewrite shared_options_run, Ev, Eh in E. cbv zeta in E.
    unfold trace, final, result in E. cbn [fst snd] in E.
    rewrite (bind_done _ _ _ _ _ _ E).
    replace (opt_index (minimal_parse w argv g) <? 0) with false
      by (symmetry; now apply Z.ltb_ge).
    destruct (argc - opt_index (minimal_parse w argv g) =? 0) eqn:Z0.
    + apply Z.eqb_eq in Z0.
      replace (nth_error argv (Z.to_nat (opt_index (minimal_parse w argv g))))
        with (@None string) by (symmetry; apply nth_error_None; lia).
      now destruct (_help_for w None (minimal_globals w argv g))
        as [[t g'] r].
    + apply Z.eqb_neq in Z0.
      destruct (nth_error argv (Z.to_nat (opt_index (minimal_parse w argv g))))
        as [a|] eqn:N; [|apply nth_error_None in N; lia].
      assert (Ea : arg_at (skipn (Z.to_nat (opt_index (minimal_parse w argv g)))
                             argv) 0 (minimal_globals w argv g)
                   = ([], minimal_globals w argv g, Done (Some a))).
      { unfold arg_at. change (0 <? 0) with false. cbv iota.
        change (Z.to_nat 0) with 0%nat.
        now rewrite nth_error_after_skip, N. }
      rewrite (bind_done _ _ _ _ _ _ Ea). cbn [app].
      now destruct (_help_for w (Some a) (minimal_globals w argv g))
        as [[t g'] r].
Qed.

(** "notmuch help bogus": the handler gets the arguments from "help"
    on, the topic is "bogus". *)
Lemma help_command_topic_witness :
  let argv := ["help"; "bogus"] in
  2 = Z.of_nat (List.length argv)
  /\ notmuch_help_command Demo.plain 2 argv globals_init
     = ([ParseArguments argv; Out stderr (not_known "bogus")],
        globals_init, Done EXIT_FAILURE).
Proof.
  intros argv. split; [reflexivity|].
  destruct (help_command_topic Demo.plain 2 argv globals_init eq_refl)
    as (_ & H).
  rewrite H; [reflexivity | simpl; lia | reflexivity | reflexivity].
Defined.

(** X7. The status of the two functions of the table that this file
    defines: when [notmuch_help_command] returns, and when
    [notmuch_command] returns for a configuration that is not new, the
    value is EXIT_SUCCESS or EXIT_FAILURE. *)
Theorem handler_status_range (w : world) (config : notmuch_config_t)
        (argc : Z) (argv : list string) (g : globals) (r : Z) :
  (result (notmuch_help_command w argc argv g) = Done r ->
   r = EXIT_SUCCESS \/ r = EXIT_FAILURE)
  /\ (notmuch_config_is_new w config = false ->
      result (notmuch_command w config g) = Done r ->
      r = EXIT_SUCCESS \/ r = EXIT_FAILURE).
Proof.
  split.
  - unfold notmuch_help_command. intros H.
    apply bind_result in H as (i & g1 & _ & _ & H).
    destruct (i <? 0); [inversion H; now right|].
    destruct (argc - i =? 0); [exact (help_for_status _ _ _ _ H)|].
    apply bind_result in H as (a & g2 & _ & _ & H).
    exact (help_for_status _ _ _ _ H).
  - intros Hnew. unfold notmuch_command. rewrite Hnew. intros H.
    apply bind_result in H as (path & g1 & _ & _ & H).
    destruct (stat w (path ++ "/" ++ ".notmuch")) as [e|].
    + destruct (negb (e =? ENOENT w)).
      * apply bind_result in H as (_ & g2 & _ & _ & H).
        inversion H. now right.
      * apply bind_result in H as (_ & g2 & _ & _ & H).
        apply bind_result in H as (_ & g3 & _ & _ & H).
        inversion H. now left.
    + apply bind_result in H as (user & g2 & _ & _ & H).
      apply bind_result in H as (email & g3 & _ & _ & H).
      apply bind_result in H as (_ & g4 & _ & _ & H).
      inversion H. now left.
Qed.

(** X8. [notmuch_command] on a configuration that is not new looks for
    the directory ".notmuch" below the database path.  When [stat] fails
    for another reason than a missing file, it writes one message with
    the path and the reason to the error stream and returns EXIT_FAILURE,
    and this is the only way it returns EXIT_FAILURE.  When the directory
    is missing it names the path on the standard output and returns
    EXIT_SUCCESS; when it is there, the text on the standard output
    carries the user's name and address. *)
Theorem notmuch_command_cases (w : world) (config : notmuch_config_t)
        (g : globals) (d : string)
        (Hnew : notmuch_config_is_new w config = false)
        (Hpath : notmuch_config_get_database_path w config = Some d) :
  (forall e, stat w (d ++ "/" ++ ".notmuch") = Some e -> e <> ENOENT w ->
             notmuch_command w config g
             = ([Out stderr (stat_error w (d ++ "/" ++ ".notmuch") e)], g,
                Done EXIT_FAILURE)
             /\ contains (stat_error w (d ++ "/" ++ ".notmuch") e)
                         (d ++ "/" ++ ".notmuch")
             /\ contains (stat_error w (d ++ "/" ++ ".notmuch") e)
                         (strerror w e))
  /\ (stat w (d ++ "/" ++ ".notmuch") = Some (ENOENT w) ->
      exists t1 t2,
        notmuch_command w config g
        = ([Out stdout t1; Out stdout t2], g, Done EXIT_SUCCESS)
        /\ contains t1 (d ++ "/" ++ ".notmuch"))
  /\ (stat w (d ++ "/" ++ ".notmuch") = None ->
      forall user email,
        notmuch_config_get_user_name w config = Some user ->
        notmuch_config_get_user_primary_email w config = Some email ->
        exists text,
          notmuch_command w config g = ([Out stdout text], g, Done EXIT_SUCCESS)
          /\ contains text user /\ contains text email)
  /\ (result (notmuch_command w config g) = Done EXIT_FAILURE
      <-> exists e, stat w (d ++ "/" ++ ".notmuch") = Some e /\ e <> ENOENT w).
Proof.
  unfold notmuch_command. rewrite Hnew, Hpath.
  unfold bind, deref, ret, printf, fprintf, emit, result. cbv beta iota.
  destruct (stat w (d ++ "/" ++ ".notmuch")) as [e|] eqn:S.
  - destruct (e =? ENOENT w) eqn:E; cbn [negb]; cbv beta iota;
      cbn [app fst snd].
    + apply Z.eqb_eq in E. subst e.
      split; [intros e He Hne; inversion He; congruence|].
      split.
      { intros _. eexists _, _. split; [reflexivity|].
        repeat first [apply contains_here | apply contains_after]. }
      split; [discriminate|].
      split; [discriminate|]. intros (e & He & Hne). inversion He. congruence.
    + apply Z.eqb_neq in E.
      split.
      { intros e' He' _. inversion He'. subst e'.
        split; [reflexivity|]. unfold stat_error.
        split; repeat first [apply contains_here | apply contains_after]. }
      split; [intros H; inversion H; congruence|].
      split; [discriminate|].
      split; [intros _; now exists e | reflexivity].
  - split; [discriminate|]. split; [discriminate|]. split.
    + intros _ user email Hu He. rewrite Hu, He. cbv beta iota.
      cbn [app]. eexists. split; [reflexivity|].
      split; repeat first [apply contains_here | apply contains_after].
    + split; [|intros (e & He & _); discriminate He].
      destruct (notmuch_config_get_user_name w config) as [user|];
        [|discriminate].
      destruct (notmuch_config_get_user_primary_email w config) as [email|];
        discriminate.
Qed.

(** The database directory cannot be read. *)
Lemma notmuch_command_cases_witness :
  let w := Scenario.world_of (Some (Config 1)) false (Some 13) 0 in
  notmuch_config_is_new w (Config 1) = false
  /\ notmuch_config_get_database_path w (Config 1) = Some "/home/user/mail"
  /\ notmuch_command w (Config 1) globals_init
     = ([Out stderr ("Error looking for notmuch database at "
                     ++ "/home/user/mail/.notmuch: Permission denied" ++ nl)],
        globals_init, Done EXIT_FAILURE).
Proof.
  intros w. split; [reflexivity|]. split; [reflexivity|].
  destruct (notmuch_command_cases w (Config 1) globals_init "/home/user/mail"
              eq_refl eq_refl) as (H & _).
  destruct (H 13 eq_refl) as (E & _); [discriminate | exact E].
Defined.

(** ** More paths through [main] *)

Lemma main_help_flag (w : world) (argv : list string) (g : globals) :
  0 <= opt_index (main_parse w argv g) ->
  parsed_version (main_parse w argv g) = false ->
  parsed_help (main_parse w argv g) = true ->
  main w argv g
  = ((prologue w
        ++ ParseArguments argv
        :: trace (_help_for w (command_token argv (opt_index (main_parse w argv g)))
                            (parsed_globals w argv g)))%list,
     final (_help_for w (command_token argv (opt_index (main_parse w argv g)))
                      (parsed_globals w argv g)),
     match result (_help_for w
                     (command_token argv (opt_index (main_parse w argv g)))
                     (parsed_globals w argv g)) with
     | Done r => Stop (Exited r)
     | Stop s => Stop s
     end).
Proof.
  intros H0 Hv Hh.
  assert (Ev : print_version (parsed_globals w argv g) = false) by exact Hv.
  assert (Eh : print_help (parsed_globals w argv g) = true) by exact Hh.
  pose proof (shared_options_run w
                (command_token argv (opt_index (main_parse w argv g)))
                (parsed_globals w argv g)) as Hs.
  rewrite Ev, Eh in Hs. rewrite main_run. cbv zeta.
  destruct (_help_for w (command_token argv (opt_index (main_parse w argv g)))
                      (parsed_globals w argv g)) as [[t g'] [r|s]];
    unfold trace, final, result in Hs; cbn [fst snd] in Hs;
    rewrite (dispatch_shared_stop w argv g _ _ _ H0 Hs); reflexivity.
Qed.

(** X4. With the help flag set and the version flag not set, [main] ends
    inside [notmuch_process_shared_options]: after the parse all it does
    is what the help resolver does for the command name, the exit status
    is the status of the resolver, and [main] does not return, opens no
    configuration and runs no command. *)
Theorem help_flag_ends_main (w : world) (argv : list string) (g : globals)
        (Hindex : 0 <= opt_index (main_parse w argv g))
        (Hversion : parsed_version (main_parse w argv g) = false)
        (Hhelp : parsed_help (main_parse w argv g) = true) :
  trace (main w argv g)
  = (prologue w
       ++ ParseArguments argv
       :: trace (_help_for w (command_token argv (opt_index (main_parse w argv g)))
                           (parsed_globals w argv g)))%list
  /\ (forall r,
        result (_help_for w (command_token argv (opt_index (main_parse w argv g)))
                          (parsed_globals w argv g)) = Done r ->
        result (main w argv g) = Stop (Exited r))
  /\ (forall r, result (main w argv g) <> Done r)
  /\ count is_open_call (trace (main w argv g)) = 0%nat
  /\ count is_run (trace (main w argv g)) = 0%nat.
Proof.
  pose proof (quiet_help_for w
                (command_token argv (opt_index (main_parse w argv g)))
                (parsed_globals w argv g)) as Hq.
  apply count_config_zero in Hq. destruct Hq as (_ & _ & Ho).
  pose proof (help_for_runs_nothing w
                (command_token argv (opt_index (main_parse w argv g)))
                (parsed_globals w argv g)) as Hr.
  destruct (prologue_counts w) as (_ & _ & Po).
  rewrite (main_help_flag w argv g Hindex Hversion Hhelp).
  destruct (_help_for w (command_token argv (opt_index (main_parse w argv g)))
                      (parsed_globals w argv g)) as [[t g'] r0].
  unfold trace, result in *. cbn [fst snd] in *.
  split; [reflexivity|].
  split; [intros r ->; reflexivity|].
  split; [intros r; destruct r0; discriminate|].
  split.
  - rewrite count_app, Po.
    change (ParseArguments argv :: t) with ([ParseArguments argv] ++ t)%list.
    rewrite count_app, Ho. reflexivity.
  - rewrite count_app, prologue_no_run.
    change (ParseArguments argv :: t) with ([ParseArguments argv] ++ t)%list.
    rewrite count_app, Hr. reflexivity.
Qed.

(** "notmuch --help search": the viewer shows the page of "search". *)
Lemma help_flag_ends_main_witness :
  let argv := ["notmuch"; "--help"; "search"] in
  0 <= opt_index (main_parse Demo.plain argv globals_init)
  /\ parsed_version (main_parse Demo.plain argv globals_init) = false
  /\ parsed_help (main_parse Demo.plain argv globals_init) = true
  /\ trace (main Demo.plain argv globals_init)
     = [Lib "talloc_enable_null_tracking"; Lib "talloc_new";
        Lib "g_mime_init"; ParseArguments argv;
        Execlp "man" ["man"; "notmuch-search"]]
  /\ count is_open_call (trace (main Demo.plain argv globals_init)) = 0%nat.
Proof.
  intros argv.
  assert (H0 : 0 <= opt_index (main_parse Demo.plain argv globals_init))
    by (simpl; lia).
  destruct (help_flag_ends_main Demo.plain argv globals_init H0 eq_refl eq_refl)
    as (Ht & _ & _ & Ho & _).
  split; [exact H0|]. split; [reflexivity|]. split; [reflexivity|].
  split; [rewrite Ht; reflexivity | exact Ho].
Defined.

(** X2. The help flag without a command name and without the version
    flag: [main] prints the banner and the usage text on the standard
    output and the process exits with EXIT_SUCCESS; nothing else happens
    after the parse. *)
Theorem help_flag_alone (w : world) (argv : list string) (g : globals)
        (Hindex : 0 <= opt_index (main_parse w argv g))
        (Hversion : parsed_version (main_parse w argv g) = false)
        (Hhelp : parsed_help (main_parse w argv g) = true)
        (Hnone : command_token argv (opt_index (main_parse w argv g)) = None) :
  main w argv g
  = ((prologue w
        ++ ParseArguments argv
        :: Out stdout banner
        :: map (Out stdout) usage_texts)%list,
     parsed_globals w argv g, Stop (Exited EXIT_SUCCESS)).
Proof.
  rewrite (main_help_flag w argv g Hindex Hversion Hhelp), Hnone.
  now rewrite help_for_none.
Qed.

Lemma help_flag_alone_witness :
  let argv := ["notmuch"; "--help"] in
  0 <= opt_index (main_parse Demo.plain argv globals_init)
  /\ command_token argv (opt_index (main_parse Demo.plain argv globals_init))
     = None
  /\ main Demo.plain argv globals_init
     = (([Lib "talloc_enable_null_tracking"; Lib "talloc_new";
          Lib "g_mime_init"; ParseArguments argv; Out stdout banner]
           ++ map (Out stdout) usage_texts)%list,
        mk_globals false true None 2, Stop (Exited 0)).
Proof.
  intros argv.
  assert (H0 : 0 <= opt_index (main_parse Demo.plain argv globals_init))
    by (simpl; lia).
  split; [exact H0|]. split; [reflexivity|].
  exact (help_flag_alone Demo.plain argv globals_init H0 eq_refl eq_refl
                         eq_refl).
Defined.

(** X9. A parse error comes first: when the parser returns a negative
    index, [main] goes to DONE with EXIT_FAILURE and returns it.  It does
    not look at the version and help flags the parser may have set, prints
    nothing of its own, resolves no command and opens no configuration. *)
Theorem parse_failure_first (w : world) (argv : list string) (g : globals)
        (Hneg : opt_index (main_parse w argv g) < 0) :
  main w argv g
  = ((prologue w ++ ParseArguments argv :: teardown_events w None)%list,
     parsed_globals w argv g, Done EXIT_FAILURE)
  /\ count is_open_call (trace (main w argv g)) = 0%nat
  /\ forall text, ~ In (Out stdout text) (trace (main w argv g)).
Proof.
  assert (E : main w argv g
              = ((prologue w ++ ParseArguments argv :: teardown_events w None)%list,
                 parsed_globals w argv g, Done EXIT_FAILURE)).
  { rewrite main_run, (dispatch_parse_failure w argv g Hneg). cbv zeta.
    unfold trace, final, result. cbn [fst snd app].
    now rewrite final_status_failure. }
  rewrite E. unfold trace. cbn [fst snd].
  split; [reflexivity|]. split.
  - destruct (prologue_counts w) as (_ & _ & Po).
    destruct (teardown_counts w None) as (_ & _ & To).
    rewrite count_app, Po.
    change (ParseArguments argv :: ?t) with ([ParseArguments argv] ++ t)%list.
    rewrite count_app, To. reflexivity.
  - intros text H. apply in_app_or in H. destruct H as [H|H].
    + unfold prologue in H. destruct (glib_before_2_35_1 w); simpl in H;
        repeat (destruct H as [H|H]; [discriminate|]); exact H.
    + unfold teardown_events in H.
      destruct (report_path w) as [path|]; [destruct (fopen w path "w")|];
        simpl in H; repeat (destruct H as [H|H]; [discriminate|]); exact H.
Qed.

(** "notmuch --version --frobnicate": the version is not printed. *)
Lemma parse_failure_first_witness :
  let argv := ["notmuch"; "--version"; "--frobnicate"] in
  opt_index (main_parse Demo.plain argv globals_init) < 0
  /\ parsed_version (main_parse Demo.plain argv globals_init) = true
  /\ main Demo.plain argv globals_init
     = ([Lib "talloc_enable_null_tracking"; Lib "talloc_new";
         Lib "g_mime_init"; ParseArguments argv;
         Getenv "NOTMUCH_TALLOC_REPORT"; Lib "talloc_free"],
        mk_globals true false None 2, Done 1).
Proof.
  intros argv.
  assert (H0 : opt_index (main_parse Demo.plain argv globals_init) < 0)
    by (simpl; lia).
  split; [exact H0|]. split; [reflexivity|].
  destruct (parse_failure_first Demo.plain argv globals_init H0) as (E & _).
  exact E.
Defined.

Lemma dispatch_resolved (w : world) (argv : list string) (g : globals)
      (command : command_t) :
  0 <= opt_index (main_parse w argv g) ->
  parsed_version (main_parse w argv g) = false ->
  parsed_help (main_parse w argv g) = false ->
  find_command (command_token argv (opt_index (main_parse w argv g)))
  = Some command ->
  dispatch w argv (startup w g) =
    match notmuch_config_open w (parsed_config (main_parse w argv g))
                              (create_config command) with
    | None =>
        ([ParseArguments argv;
          ConfigOpen (parsed_config (main_parse w argv g))
                     (create_config command) None],
         parsed_globals w argv g, Done (None, EXIT_FAILURE))
    | Some c =>
        (ParseArguments argv
           :: ConfigOpen (parsed_config (main_parse w argv g))
                         (create_config command) (Some c)
           :: trace (call w (function command) c
                       (Z.of_nat (List.length argv)
                        - opt_index (main_parse w argv g))
                       (skipn (Z.to_nat (opt_index (main_parse w argv g))) argv)
                       (parsed_globals w argv g)),
         final (call w (function command) c
                  (Z.of_nat (List.length argv)
                   - opt_index (main_parse w argv g))
                  (skipn (Z.to_nat (opt_index (main_parse w argv g))) argv)
                  (parsed_globals w argv g)),
         match result (call w (function command) c
                         (Z.of_nat (List.length argv)
                          - opt_index (main_parse w argv g))
                         (skipn (Z.to_nat (opt_index (main_parse w argv g)))
                                argv)
                         (parsed_globals w argv g)) with
         | Done r => Done (Some c, r)
         | Stop s => Stop s
         end)
    end.
Proof.
  intros H0 Hv Hh Hf. unfold dispatch.
  rewrite (bind_done _ _ _ _ _ _ (parse_step w argv g)).
  cbn [fst snd].
  replace (opt_index (main_parse w argv g) <? 0) with false
    by (symmetry; apply Z.ltb_ge; lia).
  rewrite (bind_done _ _ _ _ _ _
             (command_name_run argv _ (parsed_globals w argv g) H0)).
  rewrite (bind_done _ _ _ _ _ _ (shared_options_pass w argv g _ Hv Hh)).
  rewrite Hf.
  destruct (notmuch_config_open w (parsed_config (main_parse w argv g))
                                (create_config command)) as [c|];
    [|reflexivity].
  unfold bind, emit, ret, trace, final, result.
  destruct (call w (function command) c _ _ (parsed_globals w argv g))
    as [[t g'] [r|s]]; cbn [fst snd app]; now rewrite ?app_nil_r.
Qed.

(** X10. When the command is found but its configuration does not open,
    [main] goes to DONE with EXIT_FAILURE: the function of the command is
    not called, nothing is closed, and [main] returns EXIT_FAILURE. *)
Theorem config_open_failure (w : world) (argv : list string) (g : globals)
        (command : command_t)
        (Hindex : 0 <= opt_index (main_parse w argv g))
        (Hversion : parsed_version (main_parse w argv g) = false)
        (Hhelp : parsed_help (main_parse w argv g) = false)
        (Hfound : find_command
                    (command_token argv (opt_index (main_parse w argv g)))
                  = Some command)
        (Hopen : notmuch_config_open w (parsed_config (main_parse w argv g))
                                     (create_config command) = None) :
  main w argv g
  = ((prologue w
        ++ [ParseArguments argv;
            ConfigOpen (parsed_config (main_parse w argv g))
                       (create_config command) None]
        ++ teardown_events w None)%list,
     parsed_globals w argv g, Done EXIT_FAILURE)
  /\ count is_run (trace (main w argv g)) = 0%nat
  /\ released (trace (main w argv g)) = 0%nat.
Proof.
  assert (E : main w argv g
              = ((prologue w
                    ++ [ParseArguments argv;
                        ConfigOpen (parsed_config (main_parse w argv g))
                                   (create_config command) None]
                    ++ teardown_events w None)%list,
                 parsed_globals w argv g, Done EXIT_FAILURE)).
  { rewrite main_run,
      (dispatch_resolved w argv g command Hindex Hversion Hhelp Hfound), Hopen.
    cbv zeta. unfold trace, final, result. cbn [fst snd].
    now rewrite final_status_failure. }
  rewrite E. unfold trace. cbn [fst snd].
  split; [reflexivity|].
  destruct (prologue_counts w) as (_ & Pr & _).
  destruct (teardown_counts w None) as (_ & Tr & _).
  unfold released in *.
  rewrite !count_app, prologue_no_run, teardown_no_run, Pr, Tr.
  split; reflexivity.
Qed.

Lemma config_open_failure_witness :
  let w := Scenario.world_of None false None 0 in
  let argv := ["notmuch"; "search"; "tag:inbox"] in
  0 <= opt_index (main_parse w argv globals_init)
  /\ notmuch_config_open w (parsed_config (main_parse w argv globals_init))
                         false = None
  /\ main w argv globals_init
     = ([Lib "talloc_enable_null_tracking"; Lib "talloc_new";
         Lib "g_mime_init"; Lib "g_type_init"; ParseArguments argv;
         ConfigOpen None false None;
         Getenv "NOTMUCH_TALLOC_REPORT"; Lib "talloc_free"],
        mk_globals false false None 2, Done 1).
Proof.
  intros w argv.
  assert (H0 : 0 <= opt_index (main_parse w argv globals_init))
    by (simpl; lia).
  split; [exact H0|]. split; [reflexivity|].
  destruct (config_open_failure w argv globals_init
              (mk_command (Some "search") Fn.notmuch_search_command false
                 "Search for messages matching the given search terms.")
              H0 eq_refl eq_refl eq_refl eq_refl) as (E & _).
  exact E.
Defined.

(** X11. Without a command name and without the version and help flags,
    [main] takes the entry without a name: it opens the configuration
    with permission to create it and calls [notmuch_command].  When that
    returns, the configuration is closed and the status goes through the
    end of [main]; for a new configuration [notmuch_command] hands over to
    [notmuch_setup_command] with no arguments. *)
Theorem default_command (w : world) (argv : list string) (g : globals)
        (c : notmuch_config_t)
        (Hindex : 0 <= opt_index (main_parse w argv g))
        (Hnone : command_token argv (opt_index (main_parse w argv g)) = None)
        (Hversion : parsed_version (main_parse w argv g) = false)
        (Hhelp : parsed_help (main_parse w argv g) = false)
        (Hopen : notmuch_config_open w (parsed_config (main_parse w argv g))
                                     true = Some c) :
  trace (main w argv g)
  = (prologue w
       ++ ParseArguments argv
       :: ConfigOpen (parsed_config (main_parse w argv g)) true (Some c)
       :: trace (notmuch_command w c (parsed_globals w argv g))
       ++ match result (notmuch_command w c (parsed_globals w argv g)) with
          | Done _ => teardown_events w (Some c)
          | Stop _ => []
          end)%list
  /\ (forall r,
        result (notmuch_command w c (parsed_globals w argv g)) = Done r ->
        result (main w argv g) = Done (final_status w r))
  /\ (notmuch_config_is_new w c = true ->
      In (Run Fn.notmuch_setup_command c 0 []) (trace (main w argv g))).
Proof.
  assert (Hf : find_command
                 (command_token argv (opt_index (main_parse w argv g)))
               = Some (mk_command None Fn.notmuch_command true
                                  "Notmuch main command."))
    by (rewrite Hnone; reflexivity).
  assert (Hnew : notmuch_config_is_new w c = true ->
                 In (Run Fn.notmuch_setup_command c 0 [])
                    (trace (notmuch_command w c (parsed_globals w argv g)))).
  { intros Hn. unfold notmuch_command. rewrite Hn.
    unfold run_subcommand, trace.
    destruct (subcommand w Fn.notmuch_setup_command c 0 []
                         (parsed_globals w argv g)).
    simpl. auto. }
  rewrite main_run,
    (dispatch_resolved w argv g _ Hindex Hversion Hhelp Hf).
  cbn [create_config function call]. rewrite Hopen. cbv zeta.
  destruct (notmuch_command w c (parsed_globals w argv g)) as [[t g'] [r|s]];
    unfold trace, final, result in *; cbn [fst snd] in *.
  - split; [reflexivity|]. split; [intros r' H; now inversion H|].
    intros Hn. apply in_or_app. right. right. right.
    apply in_or_app. left. auto.
  - split; [now rewrite app_nil_r|]. split; [discriminate|].
    intros Hn. apply in_or_app. right. right. right. auto.
Qed.

(** "notmuch" alone on a new configuration. *)
Lemma default_command_witness :
  let w := Scenario.world_of (Some (Config 1)) true None 0 in
  let argv := ["notmuch"] in
  0 <= opt_index (main_parse w argv globals_init)
  /\ command_token argv (opt_index (main_parse w argv globals_init)) = None
  /\ trace (main w argv globals_init)
     = [Lib "talloc_enable_null_tracking"; Lib "talloc_new";
        Lib "g_mime_init"; Lib "g_type_init"; ParseArguments argv;
        ConfigOpen None true (Some (Config 1));
        Run Fn.notmuch_setup_command (Config 1) 0 [];
        ConfigClose (Config 1);
        Getenv "NOTMUCH_TALLOC_REPORT"; Lib "talloc_free"].
Proof.
  intros w argv.
  assert (H0 : 0 <= opt_index (main_parse w argv globals_init))
    by (simpl; lia).
  split; [exact H0|]. split; [reflexivity|].
  destruct (default_command w argv globals_init (Config 1)
              H0 eq_refl eq_refl eq_refl eq_refl) as (E & _).
  rewrite E. reflexivity.
Defined.

(** ** What a command is called with *)

Lemma skipn_at (l : list string) (i : nat) (n : string) :
  nth_error l i = Some n -> exists rest, skipn i l = n :: rest.
Proof.
  revert i. induction l as [|a l IH]; intros [|i]; simpl; try discriminate.
  - intros H. inversion H. now exists l.
  - apply IH.
Qed.

Lemma call_external (w : world) (f : Fn.t) (c : notmuch_config_t) (argc : Z)
      (argv : list string) :
  external f = true -> call w f c argc argv = run_subcommand w f c argc argv.
Proof. destruct f; simpl; intros H; first [reflexivity | discriminate]. Qed.

(** X12. When [main] calls the function of a sub-command, the argument
    vector it passes starts with the command name and holds the rest of
    the command line, and the argument count it passes is the length of
    that vector. *)
Theorem handler_arguments (w : world) (argv : list string) (g : globals)
        (n : string) (command : command_t) (c : notmuch_config_t)
        (Hindex : 0 <= opt_index (main_parse w argv g))
        (Htoken : command_token argv (opt_index (main_parse w argv g)) = Some n)
        (Hversion : parsed_version (main_parse w argv g) = false)
        (Hhelp : parsed_help (main_parse w argv g) = false)
        (Hfound : find_command (Some n) = Some command)
        (Hext : external (function command) = true)
        (Hopen : notmuch_config_open w (parsed_config (main_parse w argv g))
                                     (create_config command) = Some c) :
  exists rest,
    skipn (Z.to_nat (opt_index (main_parse w argv g))) argv = n :: rest
    /\ In (Run (function command) c (Z.of_nat (List.length (n :: rest)))
               (n :: rest))
          (trace (main w argv g)).
Proof.
  unfold command_token in Htoken.
  destruct (opt_index (main_parse w argv g) <? Z.of_nat (List.length argv))
    eqn:Hlt; [|discriminate].
  apply Z.ltb_lt in Hlt.
  destruct (skipn_at argv _ n Htoken) as [rest Hrest].
  exists rest. split; [exact Hrest|].
  assert (Hlen : Z.of_nat (List.length argv) - opt_index (main_parse w argv g)
                 = Z.of_nat (List.length (n :: rest))).
  { rewrite <- Hrest, length_skipn. lia. }
  assert (Hf : find_command
                 (command_token argv (opt_index (main_parse w argv g)))
               = Some command).
  { unfold command_token.
    replace (opt_index (main_parse w argv g) <? Z.of_nat (List.length argv))
      with true by (symmetry; now apply Z.ltb_lt).
    now rewrite Htoken. }
  rewrite main_run,
    (dispatch_resolved w argv g command Hindex Hversion Hhelp Hf), Hopen.
  rewrite (call_external w _ c _ _ Hext), Hrest, Hlen. cbv zeta.
  unfold run_subcommand.
  destruct (subcommand w (function command) c
                       (Z.of_nat (List.length (n :: rest))) (n :: rest)
                       (parsed_globals w argv g)) as [g' [r|s]];
    unfold trace, result; cbn [fst snd];
    apply in_or_app; right; simpl; auto.
Qed.

Lemma handler_arguments_witness :
  let argv := ["notmuch"; "--config=/tmp/c"; "tag"; "+seen"; "tag:inbox"] in
  0 <= opt_index (main_parse Demo.plain argv globals_init)
  /\ command_token argv (opt_index (main_parse Demo.plain argv globals_init))
     = Some "tag"
  /\ In (Run Fn.notmuch_tag_command (Config 1) 3 ["tag"; "+seen"; "tag:inbox"])
        (trace (main Demo.plain argv globals_init)).
Proof.
  intros argv.
  assert (H0 : 0 <= opt_index (main_parse Demo.plain argv globals_init))
    by (simpl; lia).
  split; [exact H0|]. split; [reflexivity|].
  destruct (handler_arguments Demo.plain argv globals_init "tag"
              (mk_command (Some "tag") Fn.notmuch_tag_command false
                 "Add/remove tags for all messages matching the search terms.")
              (Config 1) H0 eq_refl eq_refl eq_refl eq_refl eq_refl eq_refl)
    as (rest & Hrest & Hin).
  inversion Hrest. subst rest. exact Hin.
Defined.

(** ** No allocation report *)

(** X13. When NOTMUCH_TALLOC_REPORT is not set, or set to the empty
    string, the end of [main] opens no file and returns the status it
    was reached with: it closes the configuration if there is one, reads
    the variable and frees the arena. *)
Theorem no_report_keeps_status (w : world) (config : option notmuch_config_t)
        (r : Z) (g : globals)
        (Hunset : getenv w "NOTMUCH_TALLOC_REPORT" = None
                  \/ getenv w "NOTMUCH_TALLOC_REPORT" = Some "") :
  teardown w config r g
  = ((match config with Some c => [ConfigClose c] | None => [] end
      ++ [Getenv "NOTMUCH_TALLOC_REPORT"; Lib "talloc_free"])%list,
     g, Done r)
  /\ (forall argv g0 t g',
        dispatch w argv (startup w g0) = (t, g', Done (config, r)) ->
        result (main w argv g0) = Done r).
Proof.
  assert (Hrp : report_path w = None).
  { unfold report_path. destruct Hunset as [-> | ->]; reflexivity. }
  split.
  - rewrite teardown_run. unfold teardown_events, final_status.
    rewrite Hrp. now destruct config.
  - intros argv g0 t g' Hd. rewrite main_run, Hd. cbv zeta.
    unfold result, final_status. cbn [fst snd]. now rewrite Hrp.
Qed.

(** The variable is set to the empty string and the handler returns 7. *)
Lemma no_report_keeps_status_witness :
  let w := Demo.demo_world (Some "") false true 7 in
  getenv w "NOTMUCH_TALLOC_REPORT" = Some ""
  /\ teardown w (Some (Config 1)) 7 globals_init
     = ([ConfigClose (Config 1); Getenv "NOTMUCH_TALLOC_REPORT";
         Lib "talloc_free"], globals_init, Done 7)
  /\ result (main w ["notmuch"; "count"] globals_init) = Done 7.
Proof.
  intros w. split; [reflexivity|].
  destruct (no_report_keeps_status w (Some (Config 1)) 7 globals_init
              (or_intror eq_refl)) as (E & H).
  split; [exact E|].
  apply (H ["notmuch"; "count"] globals_init
           [ParseArguments ["notmuch"; "count"];
            ConfigOpen None false (Some (Config 1));
            Run Fn.notmuch_count_command (Config 1) 1 ["count"]]
           (mk_globals false false None 2)).
  reflexivity.
Defined.

(** ** Success needs a command *)




